(** * The word-boundary location matcher of [config.py]

    A shallow embedding of [matches_location_word_boundary] and of the
    parts of Python's [str] and [re] that it calls, and of the functions
    that load and save the settings, followed by their properties.

    Python strings are sequences of Unicode code points.  The two Unicode
    tables the function depends on, [str.lower] and the alphanumeric class
    behind [\b], are taken abstractly (record [PyUnicode]) together with
    what they do on ASCII; [AsciiUnicode] is the instance used to run
    the matcher on ASCII inputs. *)

From Stdlib Require Import NArith ZArith Ascii String List Bool Lia Permutation.
From stdpp Require Import base option list strings gmap.

Local Open Scope string_scope.
Local Open Scope list_scope.
Local Open Scope N_scope.

(** ** Python strings *)

(** A [str] is a sequence of code points. *)
Definition pystr : Type := list N.

(** The [str] written by an ASCII literal. *)
Definition py (s : string) : pystr :=
  List.map N_of_ascii (list_ascii_of_string s).

Definition is_ascii (c : N) : bool := c <? 128.

Definition ascii_str (s : pystr) : bool := forallb is_ascii s.

(** [str.lower] on an ASCII code point: 'A'..'Z' go to 'a'..'z'. *)
Definition ascii_lower (c : N) : N :=
  if (65 <=? c) && (c <=? 90) then c + 32 else c.

(** [str.isalnum] on an ASCII code point: 0-9, A-Z, a-z. *)
Definition ascii_isalnum (c : N) : bool :=
  ((48 <=? c) && (c <=? 57)) || ((65 <=? c) && (c <=? 90))
  || ((97 <=? c) && (c <=? 122)).

(** The Unicode database as the matcher sees it: [text.lower()] and
    [Py_UNICODE_ISALNUM], with their values on ASCII. *)
Record PyUnicode : Type := {
  str_lower : pystr -> pystr;
  unicode_isalnum : N -> bool;
  str_lower_ascii :
    forall s, ascii_str s = true -> str_lower s = List.map ascii_lower s;
  unicode_isalnum_ascii :
    forall c, is_ascii c = true -> unicode_isalnum c = ascii_isalnum c
}.

(** The tables restricted to ASCII: other code points are left alone by
    [str_lower] and are not alphanumeric. *)
Definition AsciiUnicode : PyUnicode := {|
  str_lower := List.map ascii_lower;
  unicode_isalnum := ascii_isalnum;
  str_lower_ascii := fun s _ => eq_refl;
  unicode_isalnum_ascii := fun c _ => eq_refl
|}.

(** ** The [re] module *)

Module re.

(** [_special_chars_map]: the characters of
    [b'()[]{}?*+-|^$\\.&~# \t\n\r\v\f']. *)
Definition special_chars : pystr :=
  py "()[]{}?*+-|^$\.&~# " ++ [9; 10; 13; 11; 12].

Definition is_special (c : N) : bool :=
  existsb (N.eqb c) special_chars.

Definition backslash : N := 92.

(** [re.escape]: [pattern.translate(_special_chars_map)], a backslash
    before each special character. *)
Definition escape (pattern : pystr) : pystr :=
  flat_map (fun c => if is_special c then [backslash; c] else [c]) pattern.

(** The pattern [r'\b']. *)
Definition word_boundary : pystr := [backslash; 98].

(** Parsed patterns.  Only the two opcodes the matcher's patterns
    produce are modelled. *)
Inductive opcode : Type :=
| LITERAL (c : N)
| AT_BOUNDARY.

(** [sre_parse.SPECIAL_CHARS] = [".\\[{()*+?^$|"]. *)
Definition SPECIAL_CHARS : pystr := py ".\[{()*+?^$|".

Definition ASCIILETTERS_or_DIGITS (c : N) : bool :=
  is_ascii c && ascii_isalnum c.

(** [sre_parse._parse] on the fragment of the syntax without operators:
    an unescaped character outside [SPECIAL_CHARS] is a literal, [\b] is
    the boundary assertion, a backslash before any character that is not
    an ASCII letter or digit is that character.  [None] stands for
    [re.error] (a trailing backslash) and for every pattern outside this
    fragment (operators, classes, groups and the other letter and digit
    escapes). *)
Fixpoint parse (pattern : pystr) : option (list opcode) :=
  match pattern with
  | [] => Some []
  | this :: rest =>
    if this =? backslash then
      match rest with
      | [] => None
      | c :: rest' =>
        if c =? 98 then cons AT_BOUNDARY <$> parse rest'
        else if ASCIILETTERS_or_DIGITS c then None
        else cons (LITERAL c) <$> parse rest'
      end
    else if existsb (N.eqb this) SPECIAL_CHARS then None
    else cons (LITERAL this) <$> parse rest
  end.

Section Matching.

Variable U : PyUnicode.

(** [SRE_UNI_IS_WORD]: alphanumeric or underscore. *)
Definition is_word (c : N) : bool := unicode_isalnum U c || (c =? 95).

Definition is_word_at (o : option N) : bool :=
  match o with Some c => is_word c | None => false end.

(** [SRE_AT_BOUNDARY]: the characters before and after the position
    differ in being word characters; a missing character counts as not a
    word character. *)
Definition at_boundary (before : option N) (after : pystr) : bool :=
  xorb (is_word_at before) (is_word_at (head after)).

(** Match the opcodes at the current position; [before] is the character
    just before it, [s] the rest of the string. *)
Fixpoint match_here (ops : list opcode) (before : option N) (s : pystr)
  : bool :=
  match ops with
  | [] => true
  | AT_BOUNDARY :: ops' => at_boundary before s && match_here ops' before s
  | LITERAL c :: ops' =>
    match s with
    | [] => false
    | d :: s' => (d =? c) && match_here ops' (Some d) s'
    end
  end.

(** Try every start position, left to right, the end included. *)
Fixpoint search_from (ops : list opcode) (before : option N) (s : pystr)
  : bool :=
  match_here ops before s ||
  match s with
  | [] => false
  | d :: s' => search_from ops (Some d) s'
  end.

(** [bool(re.search(pattern, string))]; [None] when the pattern does not
    compile. *)
Definition search (pattern string : pystr) : option bool :=
  ops ← parse pattern; Some (search_from ops None string).

End Matching.

End re.

(** ** [config.py] *)

(** The list literal bound to the key ['allowed'] of [DEFAULT_LOCATIONS]. *)
Definition default_allowed : list pystr :=
  [ py "united states"; py "usa"; py "u.s."; py "america";
    py "canada"; py "north america"; py "americas"; py "us/canada";
    py "remote"; py "worldwide"; py "global"; py "anywhere" ].

(** [DEFAULT_LOCATIONS] *)
Definition DEFAULT_LOCATIONS : gmap string (list pystr) :=
  {[ "allowed" := default_allowed ]}.

Section Matcher.

Variable U : PyUnicode.

(** The pattern built for one term:
    [r'\b' + re.escape(term.lower()) + r'\b']. *)
Definition term_pattern (term : pystr) : pystr :=
  re.word_boundary ++ re.escape (str_lower U term) ++ re.word_boundary.

(** The [for term in allowed_locations] loop.  The pattern of a term is
    compiled when the loop reaches it, so an error in a later term is
    not seen once an earlier one matched. *)
Fixpoint for_term (text_lower : pystr) (allowed_locations : list pystr)
  : option bool :=
  match allowed_locations with
  | [] => Some false
  | term :: rest =>
    let pattern := term_pattern term in
    found ← re.search U pattern text_lower;
    if found : bool then Some true else for_term text_lower rest
  end.

(** [matches_location_word_boundary(text, allowed_locations=None)];
    the result [None] is an exception. *)
Definition matches_location_word_boundary
  (text : pystr) (allowed_locations : option (list pystr)) : option bool :=
  allowed_locations ←
    match allowed_locations with
    | None => DEFAULT_LOCATIONS !! "allowed"
    | Some l => Some l
    end;
  let text_lower := str_lower U text in
  for_term text_lower allowed_locations.

End Matcher.

(** The opcodes of a term's pattern: the term's characters between two
    boundary assertions. *)
Definition term_ops (t : pystr) : list re.opcode :=
  re.AT_BOUNDARY :: List.map re.LITERAL t ++ [re.AT_BOUNDARY].

(** The character in front of the position reached by reading [pre] from
    a position that has [before] in front of it. *)
Definition last_or (before : option N) (pre : pystr) : option N :=
  match last pre with Some c => Some c | None => before end.

(** What the loop decides for one term: its pattern is found in the
    lowered text. *)
Definition term_found (U : PyUnicode) (text_lower term : pystr) : bool :=
  re.search_from U (term_ops (str_lower U term)) None text_lower.

(** [t] occurs in [s] between two word boundaries. *)
Definition bounded_occurrence (U : PyUnicode) (t s : pystr) : Prop :=
  exists pre post,
    s = pre ++ t ++ post /\
    re.at_boundary U (last pre) (t ++ post) = true /\
    re.at_boundary U (last (pre ++ t)) post = true.

(** An occurrence as the specification words it: [t] occurs in [s] with
    no word character directly before it and none directly after it (a
    string edge counts as none). *)
Definition delimited_occurrence (U : PyUnicode) (t s : pystr) : Prop :=
  exists pre post,
    s = pre ++ t ++ post /\
    re.is_word_at U (last pre) = false /\
    re.is_word_at U (head post) = false.

(** The first and the last character of [t] are word characters. *)
Definition word_edged (U : PyUnicode) (t : pystr) : bool :=
  re.is_word_at U (head t) && re.is_word_at U (last t).

(** A character, if any, is ASCII. *)
Definition ascii_opt (o : option N) : bool :=
  match o with Some c => is_ascii c | None => true end.

(** ** The function over the object store

    The same function with its two mutable objects made explicit: the
    module-level dict [DEFAULT_LOCATIONS], whose value under a key is a
    reference to a list object, and the list objects themselves.  The
    argument [allowed_locations] is [None] or a reference; when it is
    [None] the local name is bound to the very list object of the
    default (no copy is made). *)
Module Store.

Definition ref : Type := nat.

Record store : Type := {
  DEFAULT_LOCATIONS_dict : gmap string ref;
  lists : gmap ref (list pystr)
}.

(** Computations that read or write the store and may raise. *)
Definition M (A : Type) : Type := store -> option (A * store).

Definition ret {A} (a : A) : M A := fun st => Some (a, st).

Definition bind {A B} (m : M A) (k : A -> M B) : M B :=
  fun st => match m st with
            | Some (a, st') => k a st'
            | None => None
            end.

(** A computation without effect on the store, raising when it is
    [None]. *)
Definition lift {A} (o : option A) : M A :=
  fun st => match o with Some a => Some (a, st) | None => None end.

(** [DEFAULT_LOCATIONS[key]] *)
Definition getitem (key : string) : M ref :=
  fun st => lift (DEFAULT_LOCATIONS_dict st !! key) st.

(** The elements of a list object, as its iterator yields them. *)
Definition iter (r : ref) : M (list pystr) :=
  fun st => lift (lists st !! r) st.

(** The module after import: the dict holds one list object. *)
Definition module_store : store := {|
  DEFAULT_LOCATIONS_dict := {[ "allowed" := 0%nat ]};
  lists := {[ 0%nat := default_allowed ]}
|}.

Section Run.

Variable U : PyUnicode.

Fixpoint run_for_term (text_lower : pystr) (terms : list pystr) : M bool :=
  match terms with
  | [] => ret false
  | term :: rest =>
    let pattern := term_pattern U term in
    bind (lift (re.search U pattern text_lower)) (fun found =>
    if found : bool then ret true else run_for_term text_lower rest)
  end.

Definition call_matches_location_word_boundary
  (text : pystr) (allowed_locations : option ref) : M bool :=
  bind (match allowed_locations with
        | None => getitem "allowed"
        | Some r => ret r
        end) (fun allowed_locations =>
  let text_lower := str_lower U text in
  bind (iter allowed_locations) (fun terms =>
  run_for_term text_lower terms)).

(** The list object a call iterates over, if the store has it: the one
    passed, or the one under ['allowed'] in the dict. *)
Definition allowed_list (allowed_locations : option ref) (st : store)
  : option (list pystr) :=
  r ← match allowed_locations with
      | None => DEFAULT_LOCATIONS_dict st !! "allowed"
      | Some r => Some r
      end;
  lists st !! r.

(** Two calls in a row with the same arguments. *)
Definition call_twice (text : pystr) (allowed_locations : option ref)
  : M (bool * bool) :=
  bind (call_matches_location_word_boundary text allowed_locations) (fun b1 =>
  bind (call_matches_location_word_boundary text allowed_locations) (fun b2 =>
  ret (b1, b2))).

End Run.

End Store.

(** ** Values, files and the configuration functions

    The rest of [config.py] reads and writes JSON files.  Its values are
    the values [json.load] builds; a file is modelled by what reading it
    gives (a value or an exception), a directory tree by the nodes at
    its paths, and [json.dump] by what it raises and what it leaves to
    be read ([PyJson]). *)

(** The Python values of JSON: [None], [bool], [int], [float] (by its
    IEEE 754 binary64 bits), [str], [list] and [dict] with [str] keys. *)
#[warnings="-register-all"]
Inductive json : Type :=
| JNull
| JBool (b : bool)
| JInt (n : Z)
| JFloat (bits : N)
| JStr (s : pystr)
| JList (l : list json)
| JDict (d : gmap pystr json).

(** [bool(v)]: the truth value tested by [if v] and [v and ...]. *)
Definition truthy (v : json) : bool :=
  match v with
  | JNull => false
  | JBool b => b
  | JInt n => negb (n =? 0)%Z
  | JFloat bits => negb (N.land bits (2 ^ 63 - 1) =? 0)
  | JStr s => negb (Nat.eqb (length s) 0)
  | JList l => negb (Nat.eqb (length l) 0)
  | JDict d => negb (Nat.eqb (size d) 0)
  end.

(** [v is None] *)
Definition is_None (v : json) : bool :=
  match v with JNull => true | _ => false end.

(** [isinstance(v, list)] and [isinstance(v, dict)] *)
Definition isinstance_list (v : json) : bool :=
  match v with JList _ => true | _ => false end.

Definition isinstance_dict (v : json) : bool :=
  match v with JDict _ => true | _ => false end.

(** The exceptions of this code; a class stands for its subclasses too
    ([OSError] for [FileNotFoundError], [IsADirectoryError], ...), the
    listed ones apart: [ValueError] is one that is neither a
    [JSONDecodeError] nor a [UnicodeDecodeError]. *)
Inductive exn : Type :=
| JSONDecodeError
| OSError
| UnicodeDecodeError
| RecursionError
| ValueError
| TypeError
| AttributeError
| KeyError.

Inductive outcome (A : Type) : Type :=
| Return (a : A)
| Raise (e : exn).

Arguments Return {A} a.
Arguments Raise {A} e.

(** [sub in s] for two [str]. *)
Fixpoint startswith (sub s : pystr) : bool :=
  match sub, s with
  | [], _ => true
  | _ :: _, [] => false
  | a :: sub', b :: s' => (a =? b) && startswith sub' s'
  end.

Fixpoint str_contains (sub s : pystr) : bool :=
  startswith sub s ||
  match s with
  | [] => false
  | _ :: s' => str_contains sub s'
  end.

(** [key == x] for a [str] key: only an equal [str] is equal to it. *)
Definition eq_str (key : pystr) (x : json) : bool :=
  match x with JStr s => bool_decide (s = key) | _ => false end.

(** [key in v] for a [str] key: a key of a dict, an element of a list, a
    substring of a str; the other values are not iterable. *)
Definition py_in (key : pystr) (v : json) : outcome bool :=
  match v with
  | JDict d => Return (bool_decide (is_Some (d !! key)))
  | JList l => Return (existsb (eq_str key) l)
  | JStr s => Return (str_contains key s)
  | _ => Raise TypeError
  end.

(** [v[key]] for a [str] key. *)
Definition py_getitem (v : json) (key : pystr) : outcome json :=
  match v with
  | JDict d => match d !! key with
               | Some x => Return x
               | None => Raise KeyError
               end
  | _ => Raise TypeError
  end.

(** [v.get(key, default)]: only a dict has the method. *)
Definition py_get (v : json) (key : pystr) (default : json) : outcome json :=
  match v with
  | JDict d => Return (match d !! key with Some x => x | None => default end)
  | _ => Raise AttributeError
  end.

(** [DEFAULT_KEYWORDS] *)
Definition DEFAULT_KEYWORDS : list pystr :=
  [ py "devops"; py "sre"; py "site reliability"; py "platform engineer";
    py "infrastructure"; py "cloud engineer"; py "devsecops";
    py "kubernetes"; py "terraform" ].

(** The value of [DEFAULT_KEYWORDS.copy()]. *)
Definition DEFAULT_KEYWORDS_copy : json := JList (JStr <$> DEFAULT_KEYWORDS).

(** The value of [DEFAULT_LOCATIONS.copy()]: the dict of the module,
    one key ['allowed'] with the default list. *)
Definition DEFAULT_LOCATIONS_copy : json :=
  JDict {[ py "allowed" := JList (JStr <$> default_allowed) ]}.

(** A path, resolved: the names from the root down. *)
Definition path : Type := list string.

(** What reading a regular file gives: text that [json.load] parses to
    a value, text that it rejects, bytes that are no text, or text on
    which [json.load] raises something else: [RecursionError] on
    nesting deeper than the interpreter allows, [ValueError] on an
    integer of more digits than its limit. *)
Inductive content : Type :=
| Json (v : json)
| NotJson
| Undecodable
| Failing (e : exn).

Inductive node : Type :=
| Dir
| File (c : content).

(** The nodes of the tree; the root is a directory. *)
Definition node_at (fs : gmap path node) (p : path) : option node :=
  match p with
  | [] => Some Dir
  | _ => fs !! p
  end.

(** [os.path.exists] *)
Definition os_path_exists (fs : gmap path node) (p : path) : bool :=
  match node_at fs p with Some _ => true | None => false end.

(** [os.path.dirname] *)
Definition dirname (p : path) : path := removelast p.

(** Computations on the file system; the tree is kept when they raise. *)
Definition IO (A : Type) : Type :=
  gmap path node -> outcome A * gmap path node.

Definition io_ret {A} (a : A) : IO A := fun fs => (Return a, fs).

Definition io_bind {A B} (m : IO A) (k : A -> IO B) : IO B :=
  fun fs => match m fs with
            | (Return a, fs') => k a fs'
            | (Raise e, fs') => (Raise e, fs')
            end.

(** A computation that does not touch the files. *)
Definition io_lift {A} (o : outcome A) : IO A := fun fs => (o, fs).

(** [os.makedirs(d, exist_ok=True)], from the root down: a directory on
    the way is entered, a missing one is made, a regular file in the
    way raises ([NotADirectoryError] or [FileExistsError]). *)
Fixpoint makedirs_from (done : path) (todo : list string) : IO unit :=
  fun fs =>
    match todo with
    | [] => (Return tt, fs)
    | name :: todo' =>
      let p := done ++ [name] in
      match node_at fs p with
      | Some Dir => makedirs_from p todo' fs
      | Some (File _) => (Raise OSError, fs)
      | None => makedirs_from p todo' (<[p := Dir]> fs)
      end
    end.

Definition os_makedirs (d : path) : IO unit := makedirs_from [] d.

(** [with open(p, 'r') as f: json.load(f)] *)
Definition open_json_load (p : path) : IO json :=
  fun fs =>
    match node_at fs p with
    | Some (File (Json v)) => (Return v, fs)
    | Some (File NotJson) => (Raise JSONDecodeError, fs)
    | Some (File Undecodable) => (Raise UnicodeDecodeError, fs)
    | Some (File (Failing e)) => (Raise e, fs)
    | Some Dir => (Raise OSError, fs)
    | None => (Raise OSError, fs)
    end.

(** Values that [json.dump] writes and [json.load] reads back as they
    are: [None], booleans, integers of machine size and strings without
    surrogate code points, the lists of these, and the dicts of these
    and of such lists under such strings. *)
Definition no_surrogate (s : pystr) : bool :=
  forallb (fun c => (c <? 55296) || ((57343 <? c) && (c <? 1114112))) s.

Definition plain_scalar (v : json) : bool :=
  match v with
  | JNull | JBool _ => true
  | JInt n => (Z.abs n <? 2 ^ 63)%Z
  | JStr s => no_surrogate s
  | _ => false
  end.

Definition plain_flat (v : json) : bool :=
  plain_scalar v ||
  match v with JList l => forallb plain_scalar l | _ => false end.

Definition plain (v : json) : bool :=
  plain_flat v ||
  match v with
  | JDict d =>
    forallb (fun kx => no_surrogate (fst kx) && plain_flat (snd kx))
            (map_to_list d)
  | _ => false
  end.

(** [json.dump(data, f, indent=indent)] on a file just opened for
    writing, as far as this code sees it: the exception it raises, if
    any ([ValueError] on an integer beyond the digit limit,
    [RecursionError] on deep nesting), and what a later reading of the
    text it has written gives, which need not be the value dumped (a
    surrogate pair is read back as one code point, a NaN as the
    canonical one).  On plain values it returns and the text is read
    back as the value. *)
Record PyJson : Type := {
  dump_raises : option nat -> json -> option exn;
  dump_leaves : option nat -> json -> content;
  dump_plain :
    forall indent v, plain v = true ->
      dump_raises indent v = None /\ dump_leaves indent v = Json v
}.

(** The library without limits, for running the functions on plain
    values. *)
Definition IdealJson : PyJson := {|
  dump_raises := fun _ _ => None;
  dump_leaves := fun _ v => Json v;
  dump_plain := fun _ _ _ => conj eq_refl eq_refl
|}.

(** [with open(p, 'w') as f: json.dump(data, f, indent=indent)]:
    opening raises when [p] is a directory or is not in one; otherwise
    the file is made or emptied, and holds what [json.dump] has written
    when it returns or raises. *)
Definition open_json_dump (J : PyJson) (p : path) (data : json)
           (indent : option nat) : IO unit :=
  fun fs =>
    match node_at fs p with
    | Some Dir => (Raise OSError, fs)
    | _ =>
      match node_at fs (dirname p) with
      | Some Dir =>
        (match dump_raises J indent data with
         | None => Return tt
         | Some e => Raise e
         end, <[p := File (dump_leaves J indent data)]> fs)
      | _ => (Raise OSError, fs)
      end
    end.

(** The exceptions [load_json_file] catches:
    [except (json.JSONDecodeError, IOError)]. *)
Definition caught (e : exn) : bool :=
  match e with JSONDecodeError | OSError => true | _ => false end.

(** The exception that reading [p] raises and [load_json_file] does not
    catch, if there is one. *)
Definition escapes (fs : gmap path node) (p : path) : option exn :=
  match node_at fs p with
  | Some (File Undecodable) => Some UnicodeDecodeError
  | Some (File (Failing e)) => if caught e then None else Some e
  | _ => None
  end.

Section Config.

(** The [json] library, the directory of the module, and [DATA_DIR]:
    the environment's, or [data] under the former. *)
Variable J : PyJson.
Variable SCRIPT_DIR : path.
Variable DATA_DIR : path.

Definition COMPANIES_FILE : path := SCRIPT_DIR ++ ["companies.json"].
Definition DISCOVERED_FILE : path := DATA_DIR ++ ["discovered_companies.json"].
Definition KEYWORDS_FILE : path := DATA_DIR ++ ["keywords.json"].
Definition LOCATIONS_FILE : path := DATA_DIR ++ ["locations.json"].

(** [ensure_data_dir()] *)
Definition ensure_data_dir : IO unit := os_makedirs DATA_DIR.

(** No regular file lies at [DATA_DIR] or above it. *)
Definition way_free (fs : gmap path node) : Prop :=
  forall q c, q `prefix_of` DATA_DIR -> node_at fs q <> Some (File c).

(** [load_json_file(filepath, default=None)]; an omitted [default] is
    [JNull]. *)
Definition load_json_file (filepath : path) (default : json) : IO json :=
  fun fs =>
    let fallback := if is_None default then JDict ∅ else default in
    if os_path_exists fs filepath then
      match open_json_load filepath fs with
      | (Return v, fs') => (Return v, fs')
      | (Raise JSONDecodeError, fs') => (Return fallback, fs')
      | (Raise OSError, fs') => (Return fallback, fs')
      | (Raise e, fs') => (Raise e, fs')
      end
    else (Return fallback, fs).

(** [save_json_file(filepath, data, indent=2)] *)
Definition save_json_file (filepath : path) (data : json)
           (indent : option nat) : IO unit :=
  io_bind ensure_data_dir (fun _ =>
  open_json_dump J filepath data indent).

(** [load_companies()] *)
Definition load_companies : IO json :=
  load_json_file COMPANIES_FILE (JDict ∅).

(** [load_discovered_companies()] *)
Definition load_discovered_companies : IO json :=
  load_json_file DISCOVERED_FILE (JDict ∅).

(** [load_keywords()] *)
Definition load_keywords : IO json :=
  io_bind (load_json_file KEYWORDS_FILE JNull) (fun keywords =>
  if truthy keywords && isinstance_list keywords then io_ret keywords
  else io_ret DEFAULT_KEYWORDS_copy).

(** [save_keywords(keywords)] *)
Definition save_keywords (keywords : json) : IO unit :=
  save_json_file KEYWORDS_FILE keywords None.

(** [load_locations()] *)
Definition load_locations : IO json :=
  io_bind (load_json_file LOCATIONS_FILE JNull) (fun data =>
  io_bind (io_lift (if truthy data && isinstance_dict data
                    then py_in (py "allowed") data
                    else Return false)) (fun custom =>
  if custom : bool then
    io_bind (io_lift (py_getitem data (py "allowed"))) (fun allowed =>
    io_ret (JDict {[ py "allowed" := allowed ]}))
  else
    io_bind load_companies (fun companies =>
    io_bind (io_lift (py_in (py "locations") companies)) (fun has =>
    if has : bool then
      io_bind (io_lift (py_getitem companies (py "locations"))) (fun locs =>
      io_bind (io_lift (py_get locs (py "allowed") (JList []))) (fun allowed =>
      io_ret (JDict {[ py "allowed" := allowed ]})))
    else io_ret DEFAULT_LOCATIONS_copy)))).

(** [save_locations(locations)] *)
Definition save_locations (locations : json) : IO unit :=
  save_json_file LOCATIONS_FILE locations (Some 2%nat).

End Config.

(** Reading [p] gives no value: nothing is there, or a directory, or
    text that is not JSON. *)
Definition no_json (fs : gmap path node) (p : path) : bool :=
  match node_at fs p with
  | None | Some Dir | Some (File NotJson) => true
  | _ => false
  end.

(** The value under ['allowed'] of the JSON object stored at [p], if
    there is one. *)
Definition stored_allowed (fs : gmap path node) (p : path) : option json :=
  match node_at fs p with
  | Some (File (Json (JDict d))) => d !! py "allowed"
  | _ => None
  end.

(** * Properties *)

(** ** Escaping and parsing *)

Lemma special_chars_eq :
  re.special_chars =
  [40; 41; 91; 93; 123; 125; 63; 42; 43; 45; 124; 94; 36; 92; 46; 38; 126;
   35; 32; 9; 10; 13; 11; 12].
Proof. reflexivity. Qed.

Lemma SPECIAL_CHARS_eq :
  re.SPECIAL_CHARS = [46; 92; 91; 123; 40; 41; 42; 43; 63; 94; 36; 124].
Proof. reflexivity. Qed.

(** An escaped character is never an ASCII letter or digit, so the
    parser reads the pair as that character. *)
Lemma is_special_true (c : N) :
  re.is_special c = true ->
  (c =? 98) = false /\ re.ASCIILETTERS_or_DIGITS c = false.
Proof.
  unfold re.is_special. rewrite special_chars_eq. simpl existsb.
  rewrite !orb_true_iff, !N.eqb_eq.
  intros H. decompose [or] H; subst; try discriminate; split; reflexivity.
Qed.

(** A character left alone by [re.escape] has no meaning to the parser. *)
Lemma is_special_false (c : N) :
  re.is_special c = false ->
  (c =? re.backslash) = false /\ existsb (N.eqb c) re.SPECIAL_CHARS = false.
Proof.
  unfold re.is_special, re.backslash.
  rewrite special_chars_eq, SPECIAL_CHARS_eq. simpl existsb.
  rewrite !orb_false_iff. intros H. decompose [and] H. clear H.
  repeat split; assumption.
Qed.

Lemma parse_literal (c : N) (rest : pystr) :
  (c =? re.backslash) = false ->
  existsb (N.eqb c) re.SPECIAL_CHARS = false ->
  re.parse (c :: rest) = cons (re.LITERAL c) <$> re.parse rest.
Proof.
  intros Hb Hs. change (re.parse (c :: rest)) with
    (if c =? re.backslash then
       match rest with
       | [] => None
       | d :: rest' =>
         if d =? 98 then cons re.AT_BOUNDARY <$> re.parse rest'
         else if re.ASCIILETTERS_or_DIGITS d then None
         else cons (re.LITERAL d) <$> re.parse rest'
       end
     else if existsb (N.eqb c) re.SPECIAL_CHARS then None
     else cons (re.LITERAL c) <$> re.parse rest).
  rewrite Hb, Hs. reflexivity.
Qed.

Lemma parse_escaped (c : N) (rest : pystr) :
  (c =? 98) = false ->
  re.ASCIILETTERS_or_DIGITS c = false ->
  re.parse (re.backslash :: c :: rest) = cons (re.LITERAL c) <$> re.parse rest.
Proof.
  intros Hb Hl. change (re.parse (re.backslash :: c :: rest)) with
    (if c =? 98 then cons re.AT_BOUNDARY <$> re.parse rest
     else if re.ASCIILETTERS_or_DIGITS c then None
     else cons (re.LITERAL c) <$> re.parse rest).
  rewrite Hb, Hl. reflexivity.
Qed.

Lemma escape_cons (c : N) (s : pystr) :
  re.escape (c :: s) =
  (if re.is_special c then [re.backslash; c] else [c]) ++ re.escape s.
Proof. reflexivity. Qed.

Lemma parse_escape (s rest : pystr) :
  re.parse (re.escape s ++ rest) =
  app (List.map re.LITERAL s) <$> re.parse rest.
Proof.
  induction s as [|c s IH].
  - simpl. destruct (re.parse rest); reflexivity.
  - rewrite escape_cons. destruct (re.is_special c) eqn:Hc.
    + apply is_special_true in Hc as [Hb Hl].
      change (re.parse (re.backslash :: c :: (re.escape s ++ rest)) =
              app (List.map re.LITERAL (c :: s)) <$> re.parse rest).
      rewrite parse_escaped, IH by assumption.
      destruct (re.parse rest); reflexivity.
    + apply is_special_false in Hc as [Hb Hs].
      change (re.parse (c :: (re.escape s ++ rest)) =
              app (List.map re.LITERAL (c :: s)) <$> re.parse rest).
      rewrite parse_literal, IH by assumption.
      destruct (re.parse rest); reflexivity.
Qed.

Lemma parse_term_pattern (U : PyUnicode) (term : pystr) :
  re.parse (term_pattern U term) = Some (term_ops (str_lower U term)).
Proof.
  unfold term_pattern, term_ops. simpl. rewrite parse_escape. reflexivity.
Qed.

(** ** What a pattern matches *)

Section Semantics.

Variable U : PyUnicode.

Lemma last_or_nil (before : option N) : last_or before [] = before.
Proof. reflexivity. Qed.

Lemma last_or_cons (before : option N) (c : N) (s : pystr) :
  last_or before (c :: s) = last_or (Some c) s.
Proof.
  unfold last_or. destruct s as [|d s]; [reflexivity|].
  rewrite last_cons_cons. destruct (last (d :: s)) eqn:E; [reflexivity|].
  apply last_None in E. discriminate.
Qed.

Lemma last_or_None (s : pystr) : last_or None s = last s.
Proof. unfold last_or. destruct (last s); reflexivity. Qed.

Lemma last_or_app (before : option N) (a b : pystr) :
  last_or before (a ++ b) = last_or (last_or before a) b.
Proof.
  revert before. induction a as [|c a IH]; intros before.
  - reflexivity.
  - simpl. rewrite !last_or_cons. apply IH.
Qed.

Lemma last_app_or (a b : pystr) : last (a ++ b) = last_or (last a) b.
Proof. rewrite <- !last_or_None. apply last_or_app. Qed.

(** A run of literals consumes exactly those characters. *)
Lemma match_literals (t : pystr) (ops : list re.opcode)
      (before : option N) (s : pystr) :
  re.match_here U (List.map re.LITERAL t ++ ops) before s = true <->
  exists post, s = t ++ post /\
               re.match_here U ops (last_or before t) post = true.
Proof.
  revert before s. induction t as [|c t IH]; intros before s; simpl.
  - split.
    + intros H. exists s. split; [reflexivity | exact H].
    + intros (post & -> & H). exact H.
  - destruct s as [|d s].
    + split; [discriminate | intros (post & E & _); discriminate].
    + rewrite andb_true_iff, N.eqb_eq, IH. split.
      * intros (-> & post & -> & H). exists post.
        rewrite last_or_cons. split; [reflexivity | exact H].
      * intros (post & E & H). injection E as -> ->.
        rewrite last_or_cons in H. split; [reflexivity|].
        exists post. split; [reflexivity | exact H].
Qed.

(** Searching finds a match at some split of the string. *)
Lemma search_from_spec (ops : list re.opcode) (before : option N)
      (s : pystr) :
  re.search_from U ops before s = true <->
  exists pre post, s = pre ++ post /\
                   re.match_here U ops (last_or before pre) post = true.
Proof.
  revert before. induction s as [|d s IH]; intros before; simpl.
  - rewrite orb_false_r. split.
    + intros H. exists [], []. split; [reflexivity | exact H].
    + intros (pre & post & E & H).
      symmetry in E. apply app_eq_nil in E as [-> ->]. exact H.
  - rewrite orb_true_iff, IH. split.
    + intros [H | (pre & post & -> & H)].
      * exists [], (d :: s). split; [reflexivity | exact H].
      * exists (d :: pre), post. rewrite last_or_cons.
        split; [reflexivity | exact H].
    + intros (pre & post & E & H). destruct pre as [|c pre].
      * left. simpl in E. subst post. exact H.
      * right. injection E as -> ->. rewrite last_or_cons in H.
        exists pre, post. split; [reflexivity | exact H].
Qed.

Lemma match_term_ops (t : pystr) (before : option N) (s : pystr) :
  re.match_here U (term_ops t) before s = true <->
  exists post, s = t ++ post /\
               re.at_boundary U before s = true /\
               re.at_boundary U (last_or before t) post = true.
Proof.
  unfold term_ops.
  change (re.match_here U (re.AT_BOUNDARY :: ?l) before s)
    with (re.at_boundary U before s && re.match_here U l before s).
  rewrite andb_true_iff, match_literals. simpl. split.
  - intros (Hb & post & -> & H). rewrite andb_true_r in H.
    exists post. repeat split; assumption.
  - intros (post & -> & Hb & H). split; [exact Hb|].
    exists post. rewrite andb_true_r. split; [reflexivity | exact H].
Qed.

(** The boundary pattern of [t] is found exactly where [t] occurs
    between two word boundaries. *)
Lemma search_term_ops (t s : pystr) :
  re.search_from U (term_ops t) None s = true <-> bounded_occurrence U t s.
Proof.
  rewrite search_from_spec. unfold bounded_occurrence. split.
  - intros (pre & post0 & -> & H).
    apply match_term_ops in H as (post & -> & H1 & H2).
    rewrite last_or_None in H1, H2. exists pre, post.
    rewrite last_app_or. repeat split; assumption.
  - intros (pre & post & -> & H1 & H2).
    exists pre, (t ++ post). split; [reflexivity|].
    apply match_term_ops. exists post. rewrite last_or_None.
    rewrite last_app_or in H2. repeat split; assumption.
Qed.

(** The loop never fails: every pattern it builds compiles. *)
Lemma search_term_pattern (term text_lower : pystr) :
  re.search U (term_pattern U term) text_lower =
  Some (term_found U text_lower term).
Proof.
  unfold re.search. rewrite parse_term_pattern. reflexivity.
Qed.

Lemma for_term_existsb (text_lower : pystr) (l : list pystr) :
  for_term U text_lower l = Some (existsb (term_found U text_lower) l).
Proof.
  induction l as [|term l IH]; [reflexivity|].
  cbn [for_term existsb]. rewrite search_term_pattern. cbn.
  destruct (term_found U text_lower term); [reflexivity | exact IH].
Qed.

Lemma matches_Some (text : pystr) (l : list pystr) :
  matches_location_word_boundary U text (Some l) =
  Some (existsb (term_found U (str_lower U text)) l).
Proof. unfold matches_location_word_boundary. cbn. apply for_term_existsb. Qed.

Lemma matches_None (text : pystr) :
  matches_location_word_boundary U text None =
  matches_location_word_boundary U text (Some default_allowed).
Proof. reflexivity. Qed.

End Semantics.

(** ** ASCII inputs

    On ASCII text and terms every [PyUnicode] gives the result of
    [AsciiUnicode], which can be computed. *)

Section Ascii.

Variable U : PyUnicode.

Lemma is_ascii_lower (c : N) :
  is_ascii c = true -> is_ascii (ascii_lower c) = true.
Proof.
  unfold is_ascii, ascii_lower. rewrite N.ltb_lt. intros H.
  destruct ((65 <=? c) && (c <=? 90)) eqn:E; rewrite N.ltb_lt; [|exact H].
  apply andb_true_iff in E as [_ E]. apply N.leb_le in E. lia.
Qed.

Lemma ascii_str_lower (s : pystr) :
  ascii_str s = true -> ascii_str (List.map ascii_lower s) = true.
Proof.
  unfold ascii_str. induction s as [|c s IH]; simpl; [reflexivity|].
  rewrite !andb_true_iff. intros [Hc Hs].
  split; [apply is_ascii_lower, Hc | apply IH, Hs].
Qed.

Lemma str_lower_to_ascii (s : pystr) :
  ascii_str s = true -> str_lower U s = str_lower AsciiUnicode s.
Proof. intros H. rewrite (str_lower_ascii U s H). reflexivity. Qed.

Lemma is_word_to_ascii (c : N) :
  is_ascii c = true -> re.is_word U c = re.is_word AsciiUnicode c.
Proof.
  intros H. unfold re.is_word. rewrite (unicode_isalnum_ascii U c H).
  reflexivity.
Qed.

Lemma at_boundary_to_ascii (before : option N) (s : pystr) :
  ascii_opt before = true -> ascii_str s = true ->
  re.at_boundary U before s = re.at_boundary AsciiUnicode before s.
Proof.
  intros Hb Hs. unfold re.at_boundary. f_equal.
  - destruct before as [c|]; [apply is_word_to_ascii, Hb | reflexivity].
  - destruct s as [|c s]; [reflexivity|]. simpl in *.
    apply andb_true_iff in Hs as [Hc _]. apply is_word_to_ascii, Hc.
Qed.

Lemma match_here_to_ascii (ops : list re.opcode) (before : option N)
      (s : pystr) :
  ascii_opt before = true -> ascii_str s = true ->
  re.match_here U ops before s = re.match_here AsciiUnicode ops before s.
Proof.
  revert before s. induction ops as [|op ops IH]; intros before s Hb Hs.
  - reflexivity.
  - destruct op as [c|]; simpl.
    + destruct s as [|d s]; [reflexivity|]. simpl in Hs.
      apply andb_true_iff in Hs as [Hd Hs]. f_equal.
      apply IH; assumption.
    + rewrite at_boundary_to_ascii by assumption. f_equal.
      apply IH; assumption.
Qed.

Lemma search_from_to_ascii (ops : list re.opcode) (before : option N)
      (s : pystr) :
  ascii_opt before = true -> ascii_str s = true ->
  re.search_from U ops before s = re.search_from AsciiUnicode ops before s.
Proof.
  revert before. induction s as [|d s IH]; intros before Hb Hs; simpl.
  - rewrite match_here_to_ascii by assumption. reflexivity.
  - rewrite match_here_to_ascii by assumption. f_equal.
    simpl in Hs. apply andb_true_iff in Hs as [Hd Hs].
    apply IH; assumption.
Qed.

Lemma term_found_to_ascii (text term : pystr) :
  ascii_str text = true -> ascii_str term = true ->
  term_found U (str_lower U text) term =
  term_found AsciiUnicode (str_lower AsciiUnicode text) term.
Proof.
  intros Ht Hterm. unfold term_found.
  rewrite !str_lower_to_ascii by assumption.
  apply search_from_to_ascii; [reflexivity|].
  apply ascii_str_lower, Ht.
Qed.

Lemma matches_to_ascii (text : pystr) (l : list pystr) :
  ascii_str text = true -> forallb ascii_str l = true ->
  matches_location_word_boundary U text (Some l) =
  matches_location_word_boundary AsciiUnicode text (Some l).
Proof.
  intros Ht Hl. rewrite !matches_Some. f_equal.
  induction l as [|term l IH]; [reflexivity|]. simpl in *.
  apply andb_true_iff in Hl as [Hterm Hl].
  rewrite term_found_to_ascii, IH by assumption. reflexivity.
Qed.

Lemma matches_default_to_ascii (text : pystr) :
  ascii_str text = true ->
  matches_location_word_boundary U text None =
  matches_location_word_boundary AsciiUnicode text None.
Proof.
  intros Ht. rewrite !matches_None. apply matches_to_ascii; [exact Ht|].
  reflexivity.
Qed.

End Ascii.

(** Decide a call on ASCII literals by running it. *)
Ltac run_ascii :=
  first [ rewrite matches_to_ascii by reflexivity
        | rewrite matches_default_to_ascii by reflexivity ];
  vm_compute; reflexivity.

(** ** Terms that begin and end with a word character *)

Section WordEdged.

Variable U : PyUnicode.

Lemma word_edged_inv (t : pystr) :
  word_edged U t = true ->
  exists a z, head t = Some a /\ last t = Some z /\
              re.is_word U a = true /\ re.is_word U z = true.
Proof.
  unfold word_edged. rewrite andb_true_iff. intros [Ha Hz].
  destruct (head t) as [a|]; [|discriminate].
  destruct (last t) as [z|]; [|discriminate].
  exists a, z. repeat split; assumption.
Qed.

(** For such a term the two boundary assertions say that no word
    character touches the occurrence. *)
Lemma delimited_iff_bounded (t s : pystr) :
  word_edged U t = true ->
  delimited_occurrence U t s <-> bounded_occurrence U t s.
Proof.
  intros Ht. apply word_edged_inv in Ht as (a & z & Ha & Hz & Wa & Wz).
  assert (Hhead : forall post, head (t ++ post) = Some a).
  { intros post. destruct t; [discriminate | exact Ha]. }
  assert (Hlast : forall pre, last (pre ++ t) = Some z).
  { intros pre. rewrite last_app_or. unfold last_or. rewrite Hz. reflexivity. }
  unfold delimited_occurrence, bounded_occurrence, re.at_boundary.
  split; intros (pre & post & E & H1 & H2); exists pre, post;
    (split; [exact E|]); rewrite Hhead, Hlast in *; simpl in *;
    rewrite Wa, Wz in *.
  - rewrite H1, H2. split; reflexivity.
  - split.
    + destruct (re.is_word_at U (last pre)); [discriminate | reflexivity].
    + destruct (re.is_word_at U (head post)); [discriminate | reflexivity].
Qed.

Lemma matches_single (text term : pystr) :
  matches_location_word_boundary U text (Some [term]) = Some true <->
  bounded_occurrence U (str_lower U term) (str_lower U text).
Proof.
  rewrite matches_Some. cbn [existsb]. rewrite orb_false_r.
  unfold term_found. rewrite <- search_term_ops.
  split; [intros [= H]; exact H | intros ->; reflexivity].
Qed.

(** X1.  The reading of the specification holds for every term whose
    lowered form begins and ends with a word character: such a term is
    matched exactly when it occurs with no word character next to it. *)
Theorem word_edged_term_matches (text term : pystr) :
  word_edged U (str_lower U term) = true ->
  matches_location_word_boundary U text (Some [term]) = Some true <->
  delimited_occurrence U (str_lower U term) (str_lower U text).
Proof.
  intros Ht. rewrite matches_single. symmetry.
  apply delimited_iff_bounded, Ht.
Qed.

(** X2.  A word-edged term none of whose occurrences is free of word
    characters on both sides is not matched. *)
Theorem word_edged_term_inside_word (text term : pystr) :
  word_edged U (str_lower U term) = true ->
  (forall pre post,
      str_lower U text = pre ++ str_lower U term ++ post ->
      re.is_word_at U (last pre) || re.is_word_at U (head post) = true) ->
  matches_location_word_boundary U text (Some [term]) = Some false.
Proof.
  intros Ht Hocc. rewrite matches_Some. cbn [existsb]. rewrite orb_false_r.
  f_equal. apply not_true_is_false. intros H.
  apply search_term_ops, delimited_iff_bounded in H; [|exact Ht].
  destruct H as (pre & post & E & H1 & H2).
  specialize (Hocc pre post E). rewrite H1, H2 in Hocc. discriminate.
Qed.

End WordEdged.

(** * The properties of the specification *)

(** C1 (the code departs from it).  The text "U.S. only" holds the default
    term "u.s." at its start and followed by a space, an occurrence with
    no word character on either side; yet the matcher answers false, for
    the list ["u.s."] and for the default list alike.  The assertion
    [\b] after the final "." of the term asks for a word character to
    follow it. *)
Theorem us_dot_delimited_not_matched (U : PyUnicode) :
  delimited_occurrence U (str_lower U (py "u.s."))
    (str_lower U (py "U.S. only")) /\
  matches_location_word_boundary U (py "U.S. only") (Some [py "u.s."])
  = Some false /\
  matches_location_word_boundary U (py "U.S. only") None = Some false.
Proof.
  split; [|split; run_ascii].
  rewrite !str_lower_ascii by reflexivity.
  exists [], (py " only"). split; [reflexivity|].
  split; [reflexivity|]. simpl.
  rewrite is_word_to_ascii by reflexivity. reflexivity.
Qed.

(** C2, as stated, fails: with the explicitly empty list the text
    "Remote (Worldwide)" is not matched, with the default list it is. *)
Lemma empty_list_is_not_default :
  matches_location_word_boundary AsciiUnicode (py "Remote (Worldwide)")
    (Some []) = Some false /\
  matches_location_word_boundary AsciiUnicode (py "Remote (Worldwide)")
    (Some default_allowed) = Some true.
Proof. split; vm_compute; reflexivity. Qed.

(** C2 (amended).  A call with the allow-list omitted ([None]) behaves
    as a call with the default list, the value of
    [DEFAULT_LOCATIONS['allowed']], which holds "remote" and
    "worldwide"; so "Remote (Worldwide)" is matched when the list is
    omitted.  An empty list is not replaced by the default: it matches
    nothing. *)
Theorem omitted_list_is_default (U : PyUnicode) (text : pystr) :
  matches_location_word_boundary U text None =
  matches_location_word_boundary U text (Some default_allowed) /\
  DEFAULT_LOCATIONS !! "allowed" = Some default_allowed /\
  In (py "remote") default_allowed /\
  In (py "worldwide") default_allowed /\
  matches_location_word_boundary U (py "Remote (Worldwide)") None
  = Some true /\
  matches_location_word_boundary U text (Some []) = Some false.
Proof.
  split; [apply matches_None|]. split; [reflexivity|].
  split; [simpl; tauto|]. split; [simpl; tauto|].
  split; [run_ascii | reflexivity].
Qed.

(** C3 (the code departs from it).  In "u.s.a" the term "u.s." occurs
    once, with the letter "a" directly after it, so every occurrence has
    a word character next to it; yet the matcher answers true.  This is
    the defect of C1 seen from the other side: after the final "." the
    assertion [\b] holds exactly when a word character follows. *)
Theorem us_dot_inside_word_matched (U : PyUnicode) :
  (forall pre post,
      str_lower U (py "u.s.a") = pre ++ str_lower U (py "u.s.") ++ post ->
      re.is_word_at U (last pre) || re.is_word_at U (head post) = true) /\
  matches_location_word_boundary U (py "u.s.a") (Some [py "u.s."])
  = Some true.
Proof.
  split; [|run_ascii].
  rewrite !str_lower_ascii by reflexivity. intros pre post E.
  destruct pre as [|a pre].
  - injection E as <-. simpl.
    rewrite is_word_to_ascii by reflexivity. reflexivity.
  - exfalso. revert E. vm_compute.
    destruct pre as [|b pre]; [discriminate|].
    destruct pre as [|c pre]; [intros [= _ _ _ _ E]; discriminate|].
    destruct pre as [|d pre]; [intros [= _ _ _ _ E]; discriminate|].
    destruct pre as [|e pre]; [discriminate|].
    destruct pre as [|f pre]; discriminate.
Qed.

(** C4.  A term with inner spaces is searched as one phrase: it is
    matched exactly when its lowered form occurs in the lowered text in
    one piece with a word boundary before its first and after its last
    character, nothing being asked between its words.  "north america"
    is matched in "Open to North America applicants" and not in
    "North American applicants". *)
Theorem multi_word_phrase (U : PyUnicode) :
  matches_location_word_boundary U (py "Open to North America applicants")
    (Some [py "north america"]) = Some true /\
  matches_location_word_boundary U (py "North American applicants")
    (Some [py "north america"]) = Some false /\
  forall text term,
    matches_location_word_boundary U text (Some [term]) = Some true <->
    bounded_occurrence U (str_lower U term) (str_lower U text).
Proof.
  split; [run_ascii|]. split; [run_ascii|]. apply matches_single.
Qed.

(** ** Case *)

Lemma existsb_map {A B} (f : B -> bool) (g : A -> B) (l : list A) :
  existsb f (List.map g l) = existsb (fun a => f (g a)) l.
Proof.
  induction l as [|a l IH]; [reflexivity|]. simpl. rewrite IH. reflexivity.
Qed.

Lemma ascii_lower_idem (c : N) : ascii_lower (ascii_lower c) = ascii_lower c.
Proof.
  unfold ascii_lower.
  destruct ((65 <=? c) && (c <=? 90)) eqn:E; [|rewrite E; reflexivity].
  apply andb_true_iff in E as [E1 E2].
  apply N.leb_le in E1. apply N.leb_le in E2.
  replace (c + 32 <=? 90) with false by (symmetry; apply N.leb_gt; lia).
  rewrite andb_false_r. reflexivity.
Qed.

Lemma ascii_str_lower_idem (s : pystr) :
  str_lower AsciiUnicode (str_lower AsciiUnicode s) = str_lower AsciiUnicode s.
Proof.
  simpl. rewrite List.map_map. apply List.map_ext. apply ascii_lower_idem.
Qed.

(** Lowering both arguments first changes nothing, when lowering is
    idempotent. *)
Lemma matches_lowered (U : PyUnicode) (text : pystr) (l : list pystr) :
  (forall s, str_lower U (str_lower U s) = str_lower U s) ->
  matches_location_word_boundary U text (Some l) =
  matches_location_word_boundary U (str_lower U text)
    (Some (List.map (str_lower U) l)).
Proof.
  intros Hidem. rewrite !matches_Some, Hidem, existsb_map.
  f_equal. induction l as [|term l IH]; [reflexivity|]. simpl.
  rewrite IH. f_equal. unfold term_found. rewrite Hidem. reflexivity.
Qed.

Lemma forallb_ascii_str_lower (l : list pystr) :
  forallb ascii_str l = true ->
  forallb ascii_str (List.map (str_lower AsciiUnicode) l) = true.
Proof.
  induction l as [|term l IH]; [reflexivity|]. simpl.
  rewrite !andb_true_iff. intros [Ht Hl].
  split; [apply ascii_str_lower, Ht | apply IH, Hl].
Qed.

Lemma map_str_lower_to_ascii (U : PyUnicode) (l : list pystr) :
  forallb ascii_str l = true ->
  List.map (str_lower U) l = List.map (str_lower AsciiUnicode) l.
Proof.
  induction l as [|term l IH]; [reflexivity|]. simpl.
  rewrite andb_true_iff. intros [Ht Hl].
  rewrite IH, (str_lower_to_ascii U term Ht) by exact Hl. reflexivity.
Qed.

(** C5.  Matching does not depend on the case of either argument: the
    result for a text and a list is the result for the lowered text and
    the lowered terms.  This holds for ASCII text and terms, and for all
    strings given that lowering a lowered string changes nothing, as
    [str.lower] does.  "REMOTE" is matched by ["remote"] and "Remote" by
    ["REMOTE"]. *)
Theorem case_insensitive (U : PyUnicode) :
  matches_location_word_boundary U (py "REMOTE") (Some [py "remote"])
  = Some true /\
  matches_location_word_boundary U (py "Remote") (Some [py "REMOTE"])
  = Some true /\
  (forall text l,
      ascii_str text = true -> forallb ascii_str l = true ->
      matches_location_word_boundary U text (Some l) =
      matches_location_word_boundary U (str_lower U text)
        (Some (List.map (str_lower U) l))) /\
  ((forall s, str_lower U (str_lower U s) = str_lower U s) ->
   forall text l,
     matches_location_word_boundary U text (Some l) =
     matches_location_word_boundary U (str_lower U text)
       (Some (List.map (str_lower U) l))).
Proof.
  split; [run_ascii|]. split; [run_ascii|]. split.
  - intros text l Ht Hl.
    rewrite (map_str_lower_to_ascii U l Hl), (str_lower_to_ascii U text Ht).
    rewrite !(matches_to_ascii U);
      [ apply matches_lowered, ascii_str_lower_idem
      | apply ascii_str_lower, Ht
      | apply forallb_ascii_str_lower, Hl
      | exact Ht
      | exact Hl ].
  - intros Hidem text l. apply matches_lowered, Hidem.
Qed.

(** The ASCII tables are idempotent: a mixed-case call and its lowered
    form. *)
Lemma case_insensitive_witness :
  matches_location_word_boundary AsciiUnicode (py "Remote - USA only")
    (Some [py "Usa"; py "CANADA"]) =
  matches_location_word_boundary AsciiUnicode (py "remote - usa only")
    (Some [py "usa"; py "canada"]).
Proof.
  exact (proj2 (proj2 (proj2 (case_insensitive AsciiUnicode)))
           ascii_str_lower_idem
           (py "Remote - USA only") [py "Usa"; py "CANADA"]).
Defined.

(** C6.  With an explicitly empty list the loop body never runs: the
    result is false, and no exception, for every text, the empty text and
    "anything" among them. *)
Theorem empty_list_false (U : PyUnicode) (text : pystr) :
  matches_location_word_boundary U text (Some []) = Some false /\
  matches_location_word_boundary U [] (Some []) = Some false /\
  matches_location_word_boundary U (py "anything") (Some []) = Some false.
Proof.
  unfold matches_location_word_boundary. cbn [mbind option_bind for_term].
  repeat split.
Qed.

(** C7.  The matcher is total: for every text and every list, given or
    omitted, it returns a boolean and raises nothing.  The pattern of
    every term compiles, to the term's own characters between two
    boundary assertions: escaping makes each of them a literal.
    "C++ jobs (remote)" is matched by ["remote"]. *)
Theorem matches_total (U : PyUnicode) :
  (forall text allowed_locations,
      exists b, matches_location_word_boundary U text allowed_locations
                = Some b) /\
  (forall term,
      re.parse (term_pattern U term) = Some (term_ops (str_lower U term))) /\
  (forall s, re.parse (re.escape s) = Some (List.map re.LITERAL s)) /\
  matches_location_word_boundary U (py "C++ jobs (remote)")
    (Some [py "remote"]) = Some true.
Proof.
  split.
  { intros text [l|]; [|rewrite matches_None];
      rewrite matches_Some; eexists; reflexivity. }
  split; [apply parse_term_pattern|]. split; [|run_ascii].
  intros s. rewrite <- (app_nil_r (re.escape s)), parse_escape.
  simpl. rewrite app_nil_r. reflexivity.
Qed.

(** ** Order of the list *)

Lemma existsb_Permutation {A} (f : A -> bool) (l l' : list A) :
  Permutation l l' -> existsb f l = existsb f l'.
Proof.
  induction 1 as [|x l l' _ IH|x y l|l l' l'' _ IH1 _ IH2]; simpl.
  - reflexivity.
  - rewrite IH. reflexivity.
  - destruct (f x), (f y); reflexivity.
  - rewrite IH1. exact IH2.
Qed.

(** C8 (the code departs from it).  The list ["canada"; "u.s."] holds a
    term, "u.s.", that occurs in "U.S. only" with no word character on
    either side, so the result should be true; the matcher answers false,
    for the list and for its permutation alike.  The order of the list
    is indeed irrelevant; what fails is that the result be true exactly
    when some term has such an occurrence, by the defect of C1 and C3:
    the assertion [\b] after the final "." asks for a word character to
    follow. *)
Theorem us_dot_in_list_not_matched (U : PyUnicode) :
  Permutation [py "canada"; py "u.s."] [py "u.s."; py "canada"] /\
  In (py "u.s.") [py "canada"; py "u.s."] /\
  delimited_occurrence U (str_lower U (py "u.s."))
    (str_lower U (py "U.S. only")) /\
  matches_location_word_boundary U (py "U.S. only")
    (Some [py "canada"; py "u.s."]) = Some false /\
  matches_location_word_boundary U (py "U.S. only")
    (Some [py "u.s."; py "canada"]) = Some false.
Proof.
  split; [apply perm_swap|]. split; [simpl; tauto|].
  split; [|split; run_ascii].
  rewrite !str_lower_ascii by reflexivity.
  exists [], (py " only"). split; [reflexivity|].
  split; [reflexivity|]. simpl.
  rewrite is_word_to_ascii by reflexivity. reflexivity.
Qed.

(** X17.  The order of the list does not matter: a list and a
    permutation of it give the same result.  When every term of the list
    begins and ends with a word character once lowered, the result is
    true exactly when some term occurs in the lowered text with no word
    character directly before or after it, whichever term the loop stops
    at.  "Toronto, Canada" is matched by ["canada"; "usa"] and by
    ["usa"; "canada"]. *)
Theorem permutation_same_result (U : PyUnicode) (text : pystr)
        (l l' : list pystr) :
  Permutation l l' ->
  matches_location_word_boundary U text (Some l) =
  matches_location_word_boundary U text (Some l') /\
  ((forall term, In term l -> word_edged U (str_lower U term) = true) ->
   (matches_location_word_boundary U text (Some l) = Some true <->
    exists term, In term l /\
      delimited_occurrence U (str_lower U term) (str_lower U text))) /\
  matches_location_word_boundary U (py "Toronto, Canada")
    (Some [py "canada"; py "usa"]) = Some true /\
  matches_location_word_boundary U (py "Toronto, Canada")
    (Some [py "usa"; py "canada"]) = Some true.
Proof.
  intros Hperm. split; [|split; [|split; run_ascii]].
  - rewrite !matches_Some. f_equal. apply existsb_Permutation, Hperm.
  - intros Hedge. rewrite matches_Some. split.
    + intros [= H]. apply List.existsb_exists in H as (term & Hin & H).
      exists term. split; [exact Hin|].
      apply delimited_iff_bounded; [apply Hedge, Hin|].
      apply search_term_ops, H.
    + intros (term & Hin & H). f_equal. apply List.existsb_exists.
      exists term. split; [exact Hin|].
      apply search_term_ops, delimited_iff_bounded; [apply Hedge, Hin|].
      exact H.
Qed.

(** The lists ["canada"; "usa"] and ["usa"; "canada"] on a text that
    holds only "canada". *)
Lemma permutation_same_result_witness :
  matches_location_word_boundary AsciiUnicode (py "Toronto, Canada")
    (Some [py "canada"; py "usa"]) =
  matches_location_word_boundary AsciiUnicode (py "Toronto, Canada")
    (Some [py "usa"; py "canada"]).
Proof.
  exact (proj1 (permutation_same_result AsciiUnicode (py "Toronto, Canada")
                  [py "canada"; py "usa"] [py "usa"; py "canada"]
                  (perm_swap _ _ _))).
Defined.

(** ** The empty term *)

Lemma ascii_is_word_lower (c : N) :
  re.is_word AsciiUnicode (ascii_lower c) = re.is_word AsciiUnicode c.
Proof.
  unfold re.is_word. cbn [unicode_isalnum AsciiUnicode]. unfold ascii_lower.
  destruct ((65 <=? c) && (c <=? 90)) eqn:E; [|reflexivity].
  unfold ascii_isalnum. rewrite E.
  apply andb_true_iff in E as [E1 E2].
  apply N.leb_le in E1. apply N.leb_le in E2.
  replace (97 <=? c + 32) with true by (symmetry; apply N.leb_le; lia).
  replace (c + 32 <=? 122) with true by (symmetry; apply N.leb_le; lia).
  rewrite !orb_true_r. reflexivity.
Qed.

Section EmptyTerm.

Variable U : PyUnicode.

(** Two boundary assertions are found as soon as there is a word
    character before the position or in the rest of the string. *)
Lemma search_two_boundaries (before : option N) (s : pystr) :
  re.search_from U [re.AT_BOUNDARY; re.AT_BOUNDARY] before s =
  re.is_word_at U before || existsb (re.is_word U) s.
Proof.
  revert before. induction s as [|d s IH]; intros before.
  - simpl. unfold re.at_boundary. simpl.
    destruct (re.is_word_at U before); reflexivity.
  - cbn [re.search_from re.match_here existsb]. rewrite IH.
    unfold re.at_boundary. simpl.
    destruct (re.is_word_at U before), (re.is_word U d); reflexivity.
Qed.

Lemma str_lower_nil : str_lower U [] = [].
Proof. apply (str_lower_ascii U []). reflexivity. Qed.

Lemma is_word_ascii_lower (c : N) :
  is_ascii c = true -> re.is_word U (ascii_lower c) = re.is_word U c.
Proof.
  intros Hc. rewrite (is_word_to_ascii U c Hc).
  rewrite (is_word_to_ascii U _ (is_ascii_lower c Hc)).
  apply ascii_is_word_lower.
Qed.

Lemma existsb_is_word_lower (s : pystr) :
  ascii_str s = true ->
  existsb (re.is_word U) (str_lower U s) = existsb (re.is_word U) s.
Proof.
  intros Hs. rewrite (str_lower_ascii U s Hs).
  induction s as [|c s IH]; [reflexivity|]. simpl in *.
  apply andb_true_iff in Hs as [Hc Hs].
  rewrite is_word_ascii_lower, IH by assumption. reflexivity.
Qed.

End EmptyTerm.

(** C9.  For the empty term the pattern is two boundary assertions and
    nothing else, and the result is true exactly when the lowered text
    holds a word character; the empty text gives false.  For ASCII text,
    and for any text when lowering neither brings in nor removes word
    characters, this is: exactly when the text holds a word character. *)
Theorem empty_term (U : PyUnicode) :
  re.parse (term_pattern U []) = Some [re.AT_BOUNDARY; re.AT_BOUNDARY] /\
  (forall text,
      matches_location_word_boundary U text (Some [[]]) =
      Some (existsb (re.is_word U) (str_lower U text))) /\
  matches_location_word_boundary U [] (Some [[]]) = Some false /\
  (forall text,
      ascii_str text = true ->
      matches_location_word_boundary U text (Some [[]]) =
      Some (existsb (re.is_word U) text)) /\
  ((forall s, existsb (re.is_word U) (str_lower U s)
              = existsb (re.is_word U) s) ->
   forall text,
     matches_location_word_boundary U text (Some [[]]) =
     Some (existsb (re.is_word U) text)).
Proof.
  assert (H : forall text,
             matches_location_word_boundary U text (Some [[]]) =
             Some (existsb (re.is_word U) (str_lower U text))).
  { intros text. rewrite matches_Some. cbn [existsb].
    rewrite orb_false_r. unfold term_found. rewrite str_lower_nil.
    unfold term_ops. cbn [List.map app].
    rewrite search_two_boundaries. reflexivity. }
  split.
  { rewrite parse_term_pattern, str_lower_nil. reflexivity. }
  split; [exact H|]. split.
  { rewrite H, str_lower_nil. reflexivity. }
  split.
  - intros text Ht. rewrite H, existsb_is_word_lower by exact Ht.
    reflexivity.
  - intros Hpres text. rewrite H, Hpres. reflexivity.
Qed.

Lemma ascii_lower_keeps_words (s : pystr) :
  existsb (re.is_word AsciiUnicode) (str_lower AsciiUnicode s) =
  existsb (re.is_word AsciiUnicode) s.
Proof.
  simpl. induction s as [|c s IH]; [reflexivity|].
  cbn [List.map existsb]. rewrite IH, ascii_is_word_lower. reflexivity.
Qed.

(** A text with a word character and one without, on the ASCII tables. *)
Lemma empty_term_witness :
  matches_location_word_boundary AsciiUnicode (py "-- X --") (Some [[]])
  = Some true /\
  matches_location_word_boundary AsciiUnicode (py "-- (+) --") (Some [[]])
  = Some false.
Proof.
  split.
  - exact (proj2 (proj2 (proj2 (proj2 (empty_term AsciiUnicode))))
             ascii_lower_keeps_words (py "-- X --")).
  - exact (proj1 (proj2 (proj2 (proj2 (empty_term AsciiUnicode))))
             (py "-- (+) --") eq_refl).
Defined.

(** ** The store *)

Section StoreFacts.

Variable U : PyUnicode.

Lemma run_for_term_pure (text_lower : pystr) (l : list pystr)
      (st : Store.store) :
  Store.run_for_term U text_lower l st =
  Some (existsb (term_found U text_lower) l, st).
Proof.
  induction l as [|term l IH]; [reflexivity|].
  cbn [Store.run_for_term existsb]. unfold Store.bind, Store.lift.
  rewrite search_term_pattern.
  destruct (term_found U text_lower term); [reflexivity | exact IH].
Qed.

Lemma call_pure (text : pystr) (allowed_locations : option Store.ref)
      (st : Store.store) (l : list pystr) :
  Store.allowed_list allowed_locations st = Some l ->
  Store.call_matches_location_word_boundary U text allowed_locations st =
  Some (existsb (term_found U (str_lower U text)) l, st).
Proof.
  unfold Store.allowed_list, Store.call_matches_location_word_boundary,
    Store.bind, Store.getitem, Store.iter, Store.lift, Store.ret.
  intros H. destruct allowed_locations as [r|]; cbn in H |- *.
  - rewrite H. apply run_for_term_pure.
  - destruct (Store.DEFAULT_LOCATIONS_dict st !! "allowed") as [r|];
      [|discriminate]. cbn in H |- *. rewrite H. apply run_for_term_pure.
Qed.

(** A call on the module as imported, with the list omitted, is the
    function on the default list. *)
Lemma call_module_store (text : pystr) :
  Store.call_matches_location_word_boundary U text None Store.module_store =
  (fun b => (b, Store.module_store)) <$>
    matches_location_word_boundary U text None.
Proof.
  rewrite (call_pure text None Store.module_store default_allowed eq_refl).
  rewrite matches_None, matches_Some. reflexivity.
Qed.

End StoreFacts.

(** C10.  A call whose list argument is a list object of the store (or is
    omitted, the dict holding one under ['allowed']) returns a boolean
    and leaves the store as it found it: neither the list passed nor the
    default list is changed.  The boolean is the value of the function
    on the text and the elements of that list, so it depends on nothing
    else, and a second call with the same arguments returns it again. *)
Theorem call_is_pure (U : PyUnicode) (text : pystr)
        (allowed_locations : option Store.ref) (st : Store.store)
        (l : list pystr) :
  Store.allowed_list allowed_locations st = Some l ->
  exists b,
    matches_location_word_boundary U text (Some l) = Some b /\
    Store.call_matches_location_word_boundary U text allowed_locations st
    = Some (b, st) /\
    Store.call_twice U text allowed_locations st = Some ((b, b), st).
Proof.
  intros H. exists (existsb (term_found U (str_lower U text)) l).
  split; [apply matches_Some|]. split; [apply call_pure, H|].
  unfold Store.call_twice, Store.bind.
  rewrite !(call_pure U text allowed_locations st l H). reflexivity.
Qed.

(** The module as imported, called with the list omitted. *)
Lemma call_is_pure_witness :
  exists b,
    matches_location_word_boundary AsciiUnicode (py "Remote (Worldwide)")
      (Some default_allowed) = Some b /\
    Store.call_matches_location_word_boundary AsciiUnicode
      (py "Remote (Worldwide)") None Store.module_store
    = Some (b, Store.module_store) /\
    Store.call_twice AsciiUnicode (py "Remote (Worldwide)") None
      Store.module_store = Some ((b, b), Store.module_store).
Proof.
  exact (call_is_pure AsciiUnicode (py "Remote (Worldwide)") None
           Store.module_store default_allowed eq_refl).
Defined.

(** * The configuration files *)

(** ** Directories *)

Lemma node_at_insert_ne (fs : gmap path node) (p q : path) (n : node) :
  p <> q -> p <> [] -> node_at (<[p := n]> fs) q = node_at fs q.
Proof.
  intros Hpq Hp. destruct q as [|x q]; [reflexivity|].
  simpl. apply lookup_insert_ne. exact Hpq.
Qed.

Lemma node_at_insert_eq (fs : gmap path node) (p : path) (n : node) :
  p <> [] -> node_at (<[p := n]> fs) p = Some n.
Proof.
  intros Hp. destruct p as [|x p]; [congruence|].
  simpl. apply lookup_insert_eq.
Qed.

Lemma app_singleton_not_nil (done : path) (name : string) :
  done ++ [name] <> [].
Proof. destruct done; discriminate. Qed.

(** What [makedirs] does to a node: nothing, or it makes a directory
    where there was nothing, on the way to its target. *)
Lemma makedirs_from_node (todo : list string) (done : path)
      (fs : gmap path node) (q : path) :
  let fs' := snd (makedirs_from done todo fs) in
  node_at fs' q = node_at fs q \/
  (node_at fs q = None /\ node_at fs' q = Some Dir /\
   q `prefix_of` done ++ todo).
Proof.
  revert done fs. induction todo as [|name todo IH]; intros done fs; simpl.
  - left. reflexivity.
  - destruct (node_at fs (done ++ [name])) as [[|c]|] eqn:E.
    + destruct (IH (done ++ [name]) fs) as [H | (H1 & H2 & H3)].
      * left. exact H.
      * right. rewrite <- app_assoc in H3. repeat split; assumption.
    + left. reflexivity.
    + set (p := done ++ [name]) in *.
      assert (Hp : p <> []) by apply app_singleton_not_nil.
      destruct (decide (q = p)) as [->|Hq].
      * right. split; [exact E|]. split.
        -- destruct (IH p (<[p := Dir]> fs)) as [H | (H1 & _ & _)].
           ++ rewrite H. apply node_at_insert_eq, Hp.
           ++ rewrite node_at_insert_eq in H1 by exact Hp. discriminate.
        -- exists todo. unfold p. rewrite <- app_assoc. reflexivity.
      * destruct (IH p (<[p := Dir]> fs)) as [H | (H1 & H2 & H3)].
        -- left. rewrite H. apply node_at_insert_ne; auto.
        -- right. rewrite node_at_insert_ne in H1 by auto.
           unfold p in H3. rewrite <- app_assoc in H3.
           repeat split; assumption.
Qed.

(** When [makedirs] returns, its target is a directory. *)
Lemma makedirs_from_target (todo : list string) (done : path)
      (fs fs' : gmap path node) :
  node_at fs done = Some Dir ->
  makedirs_from done todo fs = (Return tt, fs') ->
  node_at fs' (done ++ todo) = Some Dir.
Proof.
  revert done fs. induction todo as [|name todo IH]; intros done fs Hd; simpl.
  - intros [= <-]. rewrite app_nil_r. exact Hd.
  - destruct (node_at fs (done ++ [name])) as [[|c]|] eqn:E.
    + intros H. apply IH in H; [|exact E].
      rewrite <- app_assoc in H. exact H.
    + discriminate.
    + intros H. apply IH in H.
      * rewrite <- app_assoc in H. exact H.
      * apply node_at_insert_eq, app_singleton_not_nil.
Qed.

(** [makedirs] returns exactly when no regular file is in its way. *)
Lemma makedirs_from_returns (todo : list string) (done : path)
      (fs : gmap path node) :
  fst (makedirs_from done todo fs) = Return tt <->
  (forall q c, q `prefix_of` todo ->
               node_at fs (done ++ q) <> Some (File c) \/ q = []).
Proof.
  revert done fs. induction todo as [|name todo IH]; intros done fs; simpl.
  - split; [|reflexivity]. intros _ q c Hq. right.
    apply prefix_nil_inv in Hq. exact Hq.
  - assert (Hstep : forall fs0 : gmap path node,
      (forall q, q <> [] ->
         node_at fs0 ((done ++ [name]) ++ q) = node_at fs (done ++ name :: q)) ->
      (forall c, node_at fs (done ++ [name]) <> Some (File c)) ->
      (forall q c, q `prefix_of` todo ->
         node_at fs0 ((done ++ [name]) ++ q) <> Some (File c) \/ q = []) <->
      (forall q c, q `prefix_of` name :: todo ->
         node_at fs (done ++ q) <> Some (File c) \/ q = [])).
    { intros fs0 Hsame Hp. split.
      - intros H q c Hq. destruct q as [|x q]; [right; reflexivity|].
        left. assert (x = name) as ->.
        { destruct Hq as [k Hk]. injection Hk as -> _. reflexivity. }
        apply prefix_cons_inv_2 in Hq.
        destruct q as [|y q]; [apply Hp|].
        rewrite <- Hsame by discriminate.
        destruct (H (y :: q) c Hq) as [H1|H1]; [exact H1 | discriminate].
      - intros H q c Hq. destruct q as [|y q]; [right; reflexivity|].
        left. rewrite Hsame by discriminate.
        destruct (H (name :: y :: q) c) as [H1|H1];
          [apply prefix_cons, Hq | exact H1 | discriminate]. }
    destruct (node_at fs (done ++ [name])) as [[|c]|] eqn:E.
    + rewrite IH. apply Hstep.
      * intros q _. rewrite <- app_assoc. reflexivity.
      * intros c. congruence.
    + split; [discriminate|]. intros H.
      destruct (H [name] c) as [H1|H1];
        [apply prefix_cons, prefix_nil | congruence | discriminate].
    + rewrite IH. apply Hstep.
      * intros q Hq. rewrite <- app_assoc. simpl.
        rewrite node_at_insert_ne; [reflexivity | | apply app_singleton_not_nil].
        intros Heq. apply (f_equal length) in Heq.
        rewrite !length_app in Heq. destruct q; [congruence|].
        simpl in Heq. lia.
      * intros c. congruence.
Qed.

(** ** Reading and writing one file *)

(** [load_json_file] by the node at its path. *)
Lemma load_json_file_spec (filepath : path) (default : json)
      (fs : gmap path node) :
  load_json_file filepath default fs =
  (match node_at fs filepath with
   | Some (File (Json v)) => Return v
   | _ => match escapes fs filepath with
          | Some e => Raise e
          | None => Return (if is_None default then JDict ∅ else default)
          end
   end, fs).
Proof.
  unfold load_json_file, os_path_exists, open_json_load, escapes.
  destruct (node_at fs filepath) as [[|[v| | |e]]|]; try reflexivity.
  destruct e; reflexivity.
Qed.

(** A missing file and a directory read the same. *)
Lemma load_json_file_same (q : path) (default : json)
      (fs1 fs2 : gmap path node) :
  node_at fs1 q = node_at fs2 q \/
  (node_at fs2 q = None /\ node_at fs1 q = Some Dir) ->
  fst (load_json_file q default fs1) = fst (load_json_file q default fs2).
Proof.
  rewrite !load_json_file_spec. unfold escapes. simpl.
  intros [-> | [-> ->]]; reflexivity.
Qed.

Section FileFacts.

Variable J : PyJson.
Variable DATA_DIR : path.

Lemma save_json_file_node (p q : path) (data : json) (indent : option nat)
      (fs : gmap path node) :
  p <> q ->
  let fs' := snd (save_json_file J DATA_DIR p data indent fs) in
  node_at fs' q = node_at fs q \/
  (node_at fs q = None /\ node_at fs' q = Some Dir).
Proof.
  intros Hpq. unfold save_json_file, io_bind, ensure_data_dir, os_makedirs.
  pose proof (makedirs_from_node DATA_DIR [] fs q) as Hmk. simpl in Hmk.
  destruct (makedirs_from [] DATA_DIR fs) as [[[]|e] fs1]; simpl in *.
  - assert (Hw : node_at (snd (open_json_dump J p data indent fs1)) q
                 = node_at fs1 q).
    { unfold open_json_dump.
      destruct (node_at fs1 p) as [[|c]|] eqn:Ep; try reflexivity;
        (destruct (node_at fs1 (dirname p)) as [[|c']|]; try reflexivity;
         simpl; apply node_at_insert_ne; [exact Hpq|];
         intros ->; discriminate). }
    rewrite Hw. destruct Hmk as [H | (H1 & H2 & _)]; [left | right]; auto.
  - destruct Hmk as [H | (H1 & H2 & _)]; [left | right]; auto.
Qed.

Lemma not_prefix_of_parent (d : path) (name : string) :
  ~ (d ++ [name]) `prefix_of` d.
Proof.
  intros H. apply prefix_length in H. rewrite length_app in H.
  simpl in H. lia.
Qed.

Lemma parent_not_child (d : path) (name : string) : d ++ [name] <> d.
Proof.
  intros E. apply (f_equal length) in E. rewrite length_app in E.
  simpl in E. lia.
Qed.

(** A save into [DATA_DIR], by what [makedirs] and [open] meet. *)
Lemma save_in_data_dir (name : string) (data : json) (indent : option nat)
      (fs : gmap path node) :
  (way_free DATA_DIR fs /\ node_at fs (DATA_DIR ++ [name]) <> Some Dir /\
   exists fs',
     save_json_file J DATA_DIR (DATA_DIR ++ [name]) data indent fs =
     (match dump_raises J indent data with
      | None => Return tt
      | Some e => Raise e
      end, fs') /\
     node_at fs' DATA_DIR = Some Dir /\
     node_at fs' (DATA_DIR ++ [name])
     = Some (File (dump_leaves J indent data))) \/
  (~ (way_free DATA_DIR fs /\ node_at fs (DATA_DIR ++ [name]) <> Some Dir) /\
   exists fs',
     save_json_file J DATA_DIR (DATA_DIR ++ [name]) data indent fs =
     (Raise OSError, fs')).
Proof.
  unfold save_json_file, io_bind, ensure_data_dir, os_makedirs, way_free.
  pose proof (makedirs_from_returns DATA_DIR [] fs) as Hret.
  pose proof (makedirs_from_node DATA_DIR [] fs (DATA_DIR ++ [name])) as Hnode.
  pose proof (makedirs_from_target DATA_DIR [] fs) as Htgt.
  simpl in Hret, Hnode, Htgt.
  assert (Hfree :
    (forall q c, q `prefix_of` DATA_DIR ->
                 node_at fs q <> Some (File c) \/ q = []) <->
    (forall q c, q `prefix_of` DATA_DIR -> node_at fs q <> Some (File c))).
  { split; intros H q c Hq; [|left; apply H, Hq].
    destruct (H q c Hq) as [H1 | ->]; [exact H1 | discriminate]. }
  rewrite Hfree in Hret. clear Hfree.
  destruct (makedirs_from [] DATA_DIR fs) as [[[]|e] fs1] eqn:Emk;
    simpl in *.
  - specialize (Htgt fs1 eq_refl eq_refl).
    destruct Hnode as [Hnode | (_ & _ & Hpre)];
      [|exfalso; apply (not_prefix_of_parent _ _ Hpre)].
    unfold open_json_dump, dirname. rewrite removelast_last, Htgt, Hnode.
    destruct (node_at fs (DATA_DIR ++ [name])) as [[|c]|] eqn:Ep.
    + right. split; [intros [_ H]; congruence | eexists; reflexivity].
    + left. split; [apply Hret; reflexivity|]. split; [discriminate|].
      eexists. split; [reflexivity|]. split.
      * rewrite node_at_insert_ne;
          [exact Htgt | apply parent_not_child | apply app_singleton_not_nil].
      * apply node_at_insert_eq, app_singleton_not_nil.
    + left. split; [apply Hret; reflexivity|]. split; [discriminate|].
      eexists. split; [reflexivity|]. split.
      * rewrite node_at_insert_ne;
          [exact Htgt | apply parent_not_child | apply app_singleton_not_nil].
      * apply node_at_insert_eq, app_singleton_not_nil.
  - assert (He : e = OSError).
    { clear -Emk. revert Emk. generalize (@nil string) as done.
      revert fs. induction DATA_DIR as [|x d IH]; intros fs done; simpl.
      - discriminate.
      - destruct (node_at fs (done ++ [x])) as [[|c]|].
        + apply IH.
        + intros [= <- _]. reflexivity.
        + apply IH. }
    subst e. right. split; [|eexists; reflexivity].
    intros [H _]. apply Hret in H. discriminate.
Qed.

End FileFacts.

(** ** Keywords *)


(** X7.  For a plain value [k] (a list of strings without surrogates is
    one), after [save_keywords(k)] has returned, [load_keywords()] gives
    [k] back when [k] is a non-empty list, and the default keywords
    otherwise: an empty list does not survive the round trip. *)
Theorem save_load_keywords (J : PyJson) (DATA_DIR : path) (k : json)
        (fs fs' : gmap path node) :
  plain k = true ->
  save_keywords J DATA_DIR k fs = (Return tt, fs') ->
  load_keywords DATA_DIR fs' =
  (Return (if truthy k && isinstance_list k then k
           else DEFAULT_KEYWORDS_copy), fs').
Proof.
  intros Hk H. unfold save_keywords, KEYWORDS_FILE in H.
  destruct (save_in_data_dir J DATA_DIR "keywords.json" k None fs)
    as [(_ & _ & fs0 & Hs & _ & Hn) | (_ & fs0 & Hs)];
    rewrite Hs in H; [|discriminate].
  injection H as _ <-.
  destruct (dump_plain J None k Hk) as [_ Hl]. rewrite Hl in Hn.
  unfold load_keywords, io_bind. rewrite load_json_file_spec.
  fold (KEYWORDS_FILE DATA_DIR) in Hn. rewrite Hn.
  destruct (truthy k && isinstance_list k); reflexivity.
Qed.

(** A non-empty list is read back as saved, the empty list as the
    defaults, from an empty tree. *)
Lemma save_load_keywords_witness :
  load_keywords ["app"; "data"]
    (snd (save_keywords IdealJson ["app"; "data"]
            (JList [JStr (py "golang")]) ∅)) =
  (Return (JList [JStr (py "golang")]),
   snd (save_keywords IdealJson ["app"; "data"]
          (JList [JStr (py "golang")]) ∅)) /\
  load_keywords ["app"; "data"]
    (snd (save_keywords IdealJson ["app"; "data"] (JList []) ∅)) =
  (Return DEFAULT_KEYWORDS_copy,
   snd (save_keywords IdealJson ["app"; "data"] (JList []) ∅)).
Proof.
  split.
  - exact (save_load_keywords IdealJson ["app"; "data"]
             (JList [JStr (py "golang")]) ∅ _ eq_refl eq_refl).
  - exact (save_load_keywords IdealJson ["app"; "data"] (JList []) ∅ _
             eq_refl eq_refl).
Defined.

(** ** Locations *)

Lemma dict_with_key_truthy (d : gmap pystr json) (key : pystr) (x : json) :
  d !! key = Some x -> truthy (JDict d) = true.
Proof.
  intros H. simpl. destruct (size d) eqn:E; [|reflexivity].
  apply map_size_empty_iff in E. subst d.
  rewrite lookup_empty in H. discriminate.
Qed.

(** The first test of [load_locations]: the stored value is a non-empty
    dict with the key ['allowed']. *)
Lemma custom_test (data : json) :
  (if truthy data && isinstance_dict data
   then py_in (py "allowed") data else Return false) =
  Return (match data with
          | JDict d => bool_decide (is_Some (d !! py "allowed"))
          | _ => false
          end).
Proof.
  destruct data as [|b|n|f|s|l|d];
    try (simpl; rewrite ?andb_false_r; reflexivity).
  cbn [isinstance_dict py_in]. rewrite andb_true_r.
  destruct (d !! py "allowed") as [x|] eqn:E.
  - rewrite (dict_with_key_truthy d _ x E). reflexivity.
  - destruct (truthy (JDict d)); reflexivity.
Qed.

(** The outcome of a sequence is the same from two trees when its first
    step has the same outcome and the rest does not look at the tree. *)
Lemma io_bind_fst_same {A B} (m : IO A) (k : A -> IO B)
      (fs1 fs2 : gmap path node) :
  fst (m fs1) = fst (m fs2) ->
  (forall a fs fs', fst (k a fs) = fst (k a fs')) ->
  fst (io_bind m k fs1) = fst (io_bind m k fs2).
Proof.
  unfold io_bind. destruct (m fs1) as [o1 s1], (m fs2) as [o2 s2].
  simpl. intros -> Hk. destruct o2 as [a|e]; [apply Hk | reflexivity].
Qed.

Section LocationFacts.

Variable SCRIPT_DIR : path.
Variable DATA_DIR : path.

(** With a usable [locations.json] the other file is not read. *)
Lemma load_locations_custom (fs : gmap path node) (x : json) :
  stored_allowed fs (LOCATIONS_FILE DATA_DIR) = Some x ->
  load_locations SCRIPT_DIR DATA_DIR fs =
  (Return (JDict {[ py "allowed" := x ]}), fs).
Proof.
  unfold stored_allowed, load_locations, io_bind at 1.
  rewrite load_json_file_spec.
  destruct (node_at fs (LOCATIONS_FILE DATA_DIR))
    as [[|[[| | | | | |d]| | |e]]|]; try discriminate.
  intros H. unfold io_bind at 1. rewrite custom_test. unfold io_lift at 1.
  cbv beta iota. rewrite bool_decide_eq_true_2 by (rewrite H; eauto).
  unfold io_bind, io_lift, io_ret, py_getitem. rewrite H. reflexivity.
Qed.

(** Without one, the result is read off [companies.json]. *)
Lemma load_locations_fallback (fs : gmap path node) :
  stored_allowed fs (LOCATIONS_FILE DATA_DIR) = None ->
  escapes fs (LOCATIONS_FILE DATA_DIR) = None ->
  load_locations SCRIPT_DIR DATA_DIR fs =
  io_bind (load_companies SCRIPT_DIR) (fun companies =>
  io_bind (io_lift (py_in (py "locations") companies)) (fun has =>
  if has : bool then
    io_bind (io_lift (py_getitem companies (py "locations"))) (fun locs =>
    io_bind (io_lift (py_get locs (py "allowed") (JList []))) (fun allowed =>
    io_ret (JDict {[ py "allowed" := allowed ]})))
  else io_ret DEFAULT_LOCATIONS_copy)) fs.
Proof.
  unfold stored_allowed, load_locations, io_bind at 1.
  rewrite load_json_file_spec. intros H Hu. rewrite Hu.
  destruct (node_at fs (LOCATIONS_FILE DATA_DIR)) as [[|[v| | |e]]|] eqn:E;
    unfold io_bind at 1; rewrite custom_test;
    unfold io_lift at 1; cbv beta iota; try reflexivity.
  destruct v as [| | | | | |d]; try reflexivity.
  rewrite bool_decide_eq_false_2; [reflexivity|].
  rewrite H. apply is_Some_None.
Qed.

Lemma load_locations_escapes (fs : gmap path node) (e : exn) :
  escapes fs (LOCATIONS_FILE DATA_DIR) = Some e ->
  load_locations SCRIPT_DIR DATA_DIR fs = (Raise e, fs).
Proof.
  intros H. unfold load_locations, io_bind at 1.
  rewrite load_json_file_spec, H. unfold escapes in H.
  destruct (node_at fs (LOCATIONS_FILE DATA_DIR)) as [[|[v| | |e']]|];
    try discriminate; reflexivity.
Qed.

Lemma escapes_same (q : path) (fs1 fs2 : gmap path node) :
  node_at fs1 q = node_at fs2 q \/
  (node_at fs2 q = None /\ node_at fs1 q = Some Dir) ->
  escapes fs1 q = escapes fs2 q.
Proof. unfold escapes. intros [-> | [-> ->]]; reflexivity. Qed.

(** The result depends on the two files only, and a missing file counts
    as a directory in its place. *)
Lemma load_locations_same (fs1 fs2 : gmap path node) :
  (forall q, q = LOCATIONS_FILE DATA_DIR \/ q = COMPANIES_FILE SCRIPT_DIR ->
     node_at fs1 q = node_at fs2 q \/
     (node_at fs2 q = None /\ node_at fs1 q = Some Dir)) ->
  fst (load_locations SCRIPT_DIR DATA_DIR fs1) =
  fst (load_locations SCRIPT_DIR DATA_DIR fs2).
Proof.
  intros H. pose proof (H _ (or_introl eq_refl)) as HL.
  pose proof (H _ (or_intror eq_refl)) as HC. clear H.
  destruct (stored_allowed fs2 (LOCATIONS_FILE DATA_DIR)) as [x|] eqn:E2.
  - assert (E1 : stored_allowed fs1 (LOCATIONS_FILE DATA_DIR) = Some x).
    { unfold stored_allowed in *. destruct HL as [-> | [HL _]]; [exact E2|].
      rewrite HL in E2. discriminate. }
    rewrite (load_locations_custom fs1 x E1), (load_locations_custom fs2 x E2).
    reflexivity.
  - assert (E1 : stored_allowed fs1 (LOCATIONS_FILE DATA_DIR) = None).
    { unfold stored_allowed in *. destruct HL as [-> | [_ ->]];
        [exact E2 | reflexivity]. }
    pose proof (escapes_same _ _ _ HL) as Hesc.
    destruct (escapes fs2 (LOCATIONS_FILE DATA_DIR)) as [e|] eqn:Hu.
    + rewrite (load_locations_escapes fs1 e Hesc).
      rewrite (load_locations_escapes fs2 e Hu). reflexivity.
    + rewrite (load_locations_fallback fs1 E1 Hesc).
      rewrite (load_locations_fallback fs2 E2 Hu).
      apply io_bind_fst_same.
      * apply load_json_file_same, HC.
      * intros companies fs fs'. unfold io_bind, io_lift, io_ret.
        destruct (py_in (py "locations") companies) as [[|]|e];
          try reflexivity.
        destruct (py_getitem companies (py "locations")) as [locs|e];
          [|reflexivity].
        destruct (py_get locs (py "allowed") (JList [])); reflexivity.
Qed.

End LocationFacts.

(** The steps of [load_locations] after [companies.json] is read, by
    what the reading gave. *)
Lemma companies_branch_result (read : outcome json) (fs : gmap path node) :
  exists o,
    match read with
    | Return companies =>
      io_bind (io_lift (py_in (py "locations") companies)) (fun has =>
      if has : bool then
        io_bind (io_lift (py_getitem companies (py "locations"))) (fun locs =>
        io_bind (io_lift (py_get locs (py "allowed") (JList [])))
                (fun allowed =>
        io_ret (JDict {[ py "allowed" := allowed ]})))
      else io_ret DEFAULT_LOCATIONS_copy) fs
    | Raise e => (Raise e, fs)
    end = (o, fs) /\
    ((exists x, o = Return (JDict {[ py "allowed" := x ]})) \/
     o = Raise TypeError \/ o = Raise AttributeError \/
     (exists e, read = Raise e /\ o = Raise e)).
Proof.
  destruct read as [companies|e].
  2: { eexists. split; [reflexivity|]. right. right. right. eauto. }
  unfold io_bind, io_lift, io_ret.
  destruct (py_in (py "locations") companies) as [[|]|e] eqn:Hin.
  - destruct (py_getitem companies (py "locations")) as [locs|e] eqn:Hget.
    + destruct (py_get locs (py "allowed") (JList [])) as [x|e] eqn:Hg.
      * eexists. split; [reflexivity|]. left. eauto.
      * eexists. split; [reflexivity|]. right. right. left.
        destruct locs; simpl in Hg; congruence.
    + eexists. split; [reflexivity|].
      destruct companies as [| | | | | |d]; simpl in Hin, Hget;
        try discriminate; try (injection Hget as <-; tauto).
      destruct (d !! py "locations") as [y|] eqn:El; [discriminate|].
      simpl in Hin. discriminate.
  - eexists. split; [reflexivity|]. left. eexists. reflexivity.
  - eexists. split; [reflexivity|]. right. left.
    destruct companies; simpl in Hin; congruence.
Qed.

(** X9.  Whatever the two files hold, [load_locations] returns a dict with
    the single key ['allowed'] or raises; it never changes a file.  What
    it raises is [TypeError], [AttributeError], or the exception that
    reading one of the two files raised and [load_json_file] did not
    catch; the [KeyError], [OSError] and [JSONDecodeError] of its own
    steps never reach the caller. *)
Theorem load_locations_result (SCRIPT_DIR DATA_DIR : path)
        (fs : gmap path node) :
  (exists x, load_locations SCRIPT_DIR DATA_DIR fs
             = (Return (JDict {[ py "allowed" := x ]}), fs)) \/
  (exists e, load_locations SCRIPT_DIR DATA_DIR fs = (Raise e, fs) /\
             (e = TypeError \/ e = AttributeError \/
              escapes fs (LOCATIONS_FILE DATA_DIR) = Some e \/
              escapes fs (COMPANIES_FILE SCRIPT_DIR) = Some e)).
Proof.
  destruct (stored_allowed fs (LOCATIONS_FILE DATA_DIR)) as [x|] eqn:E.
  { left. exists x. apply load_locations_custom, E. }
  destruct (escapes fs (LOCATIONS_FILE DATA_DIR)) as [e|] eqn:Hu.
  { right. exists e. split; [apply load_locations_escapes, Hu | tauto]. }
  destruct (companies_branch_result
              (fst (load_json_file (COMPANIES_FILE SCRIPT_DIR) (JDict ∅) fs))
              fs) as (o & Ho & Hgood).
  assert (Hload : load_locations SCRIPT_DIR DATA_DIR fs = (o, fs)).
  { rewrite load_locations_fallback by assumption.
    unfold load_companies, io_bind at 1.
    rewrite load_json_file_spec in Ho |- *. exact Ho. }
  rewrite Hload.
  destruct Hgood as [(x & ->) | [-> | [-> | (e & He & ->)]]].
  - left. exists x. reflexivity.
  - right. exists TypeError. split; [reflexivity | tauto].
  - right. exists AttributeError. split; [reflexivity | tauto].
  - right. exists e. split; [reflexivity|]. right. right. right.
    rewrite load_json_file_spec in He. simpl in He.
    destruct (node_at fs (COMPANIES_FILE SCRIPT_DIR)) as [[|[v| | |e']]|];
      try discriminate;
      destruct (escapes fs (COMPANIES_FILE SCRIPT_DIR));
      try discriminate; congruence.
Qed.

(** X10.  A [locations.json] holding an object with the key ['allowed'] wins:
    the result is the one-key dict with that value, whatever
    [companies.json] holds or fails to hold, and every other key of the
    stored object is dropped. *)
Theorem locations_file_first (SCRIPT_DIR DATA_DIR : path)
        (fs : gmap path node) (d : gmap pystr json) (x : json) :
  node_at fs (LOCATIONS_FILE DATA_DIR) = Some (File (Json (JDict d))) ->
  d !! py "allowed" = Some x ->
  load_locations SCRIPT_DIR DATA_DIR fs =
  (Return (JDict {[ py "allowed" := x ]}), fs).
Proof.
  intros Hn Hx. apply load_locations_custom.
  unfold stored_allowed. rewrite Hn. exact Hx.
Qed.

(** A usable [locations.json] beside a [companies.json] that is no
    text. *)
Lemma locations_file_first_witness :
  load_locations ["app"] ["app"; "data"]
    {[ ["app"; "data"; "locations.json"] :=
         File (Json (JDict {[ py "allowed" := JList [JStr (py "mars")];
                              py "blocked" := JList [] ]}));
       ["app"; "companies.json"] := File Undecodable ]} =
  (Return (JDict {[ py "allowed" := JList [JStr (py "mars")] ]}),
   {[ ["app"; "data"; "locations.json"] :=
        File (Json (JDict {[ py "allowed" := JList [JStr (py "mars")];
                             py "blocked" := JList [] ]}));
      ["app"; "companies.json"] := File Undecodable ]}).
Proof.
  exact (locations_file_first ["app"] ["app"; "data"]
           {[ ["app"; "data"; "locations.json"] :=
                File (Json (JDict {[ py "allowed" := JList [JStr (py "mars")];
                                     py "blocked" := JList [] ]}));
              ["app"; "companies.json"] := File Undecodable ]}
           {[ py "allowed" := JList [JStr (py "mars")];
              py "blocked" := JList [] ]}
           (JList [JStr (py "mars")]) eq_refl eq_refl).
Defined.

(** X11.  Without a usable [locations.json], an object in [companies.json]
    whose ['locations'] is an object decides: the result holds its
    ['allowed'] value, and the empty list when it has none, not the
    default locations. *)
Theorem locations_from_companies (SCRIPT_DIR DATA_DIR : path)
        (fs : gmap path node) (c l : gmap pystr json) :
  stored_allowed fs (LOCATIONS_FILE DATA_DIR) = None ->
  escapes fs (LOCATIONS_FILE DATA_DIR) = None ->
  node_at fs (COMPANIES_FILE SCRIPT_DIR) = Some (File (Json (JDict c))) ->
  c !! py "locations" = Some (JDict l) ->
  load_locations SCRIPT_DIR DATA_DIR fs =
  (Return (JDict {[ py "allowed" :=
                      match l !! py "allowed" with
                      | Some x => x
                      | None => JList []
                      end ]}), fs).
Proof.
  intros E Hu Hc Hl. rewrite load_locations_fallback by assumption.
  unfold load_companies, io_bind at 1. rewrite load_json_file_spec, Hc.
  unfold io_bind, io_lift, io_ret, py_in, py_getitem. rewrite Hl.
  reflexivity.
Qed.

(** [companies.json] with an empty ['locations'] object and no
    [locations.json]: the allowed list is empty. *)
Lemma locations_from_companies_witness :
  load_locations ["app"] ["app"; "data"]
    {[ ["app"; "companies.json"] :=
         File (Json (JDict {[ py "locations" := JDict ∅ ]})) ]} =
  (Return (JDict {[ py "allowed" := JList [] ]}),
   {[ ["app"; "companies.json"] :=
        File (Json (JDict {[ py "locations" := JDict ∅ ]})) ]}).
Proof.
  exact (locations_from_companies ["app"] ["app"; "data"]
           {[ ["app"; "companies.json"] :=
                File (Json (JDict {[ py "locations" := JDict ∅ ]})) ]}
           {[ py "locations" := JDict ∅ ]} ∅
           eq_refl eq_refl eq_refl eq_refl).
Defined.

(** X12.  Without a usable [locations.json], and with [companies.json]
    missing, unreadable, not JSON or an object without ['locations'],
    the result is the default dict; its ['allowed'] list is the one the
    matcher uses when its list is omitted. *)
Theorem locations_default (SCRIPT_DIR DATA_DIR : path)
        (fs : gmap path node) :
  stored_allowed fs (LOCATIONS_FILE DATA_DIR) = None ->
  escapes fs (LOCATIONS_FILE DATA_DIR) = None ->
  (no_json fs (COMPANIES_FILE SCRIPT_DIR) = true \/
   exists c, node_at fs (COMPANIES_FILE SCRIPT_DIR)
             = Some (File (Json (JDict c))) /\
             c !! py "locations" = None) ->
  load_locations SCRIPT_DIR DATA_DIR fs = (Return DEFAULT_LOCATIONS_copy, fs) /\
  py_getitem DEFAULT_LOCATIONS_copy (py "allowed")
  = Return (JList (JStr <$> default_allowed)) /\
  forall U text,
    matches_location_word_boundary U text (Some default_allowed) =
    matches_location_word_boundary U text None.
Proof.
  intros E Hu Hc. split; [|split; [reflexivity | reflexivity]].
  rewrite load_locations_fallback by assumption.
  unfold load_companies, io_bind at 1. rewrite load_json_file_spec.
  destruct Hc as [Hc | (c & Hc & Hl)].
  - unfold no_json in Hc. unfold escapes.
    destruct (node_at fs (COMPANIES_FILE SCRIPT_DIR)) as [[|[v| | |e]]|];
      try discriminate; reflexivity.
  - rewrite Hc. unfold io_bind, io_lift, io_ret, py_in. rewrite Hl.
    reflexivity.
Qed.

(** A fresh installation: no file at all. *)
Lemma locations_default_witness :
  load_locations ["app"] ["app"; "data"] ∅ = (Return DEFAULT_LOCATIONS_copy, ∅).
Proof.
  exact (proj1 (locations_default ["app"] ["app"; "data"] ∅
                  eq_refl eq_refl (or_introl eq_refl))).
Defined.

(** X13.  Valid JSON of the wrong shape in [companies.json] is not treated as
    missing: without a usable [locations.json], a stored [null], boolean
    or number, or a list with the element ['locations'], makes
    [load_locations] raise [TypeError] instead of returning the
    defaults. *)
Theorem locations_type_error (SCRIPT_DIR DATA_DIR : path)
        (fs : gmap path node) (v : json) :
  stored_allowed fs (LOCATIONS_FILE DATA_DIR) = None ->
  escapes fs (LOCATIONS_FILE DATA_DIR) = None ->
  node_at fs (COMPANIES_FILE SCRIPT_DIR) = Some (File (Json v)) ->
  (v = JNull \/ (exists b, v = JBool b) \/ (exists n, v = JInt n) \/
   (exists f, v = JFloat f) \/
   (exists l, v = JList l /\ In (JStr (py "locations")) l)) ->
  load_locations SCRIPT_DIR DATA_DIR fs = (Raise TypeError, fs).
Proof.
  intros E Hu Hc Hv. rewrite load_locations_fallback by assumption.
  unfold load_companies, io_bind at 1. rewrite load_json_file_spec, Hc.
  destruct Hv as [-> | [[b ->] | [[n ->] | [[f ->] | (l & -> & Hin)]]]];
    try reflexivity.
  unfold io_bind, io_lift, py_in.
  replace (existsb (eq_str (py "locations")) l) with true; [reflexivity|].
  symmetry. apply List.existsb_exists.
  exists (JStr (py "locations")). split; [exact Hin|].
  reflexivity.
Qed.

(** [companies.json] holding [null], and holding a list that names
    ['locations']. *)
Lemma locations_type_error_witness :
  load_locations ["app"] ["app"; "data"]
    {[ ["app"; "companies.json"] := File (Json JNull) ]} =
  (Raise TypeError, {[ ["app"; "companies.json"] := File (Json JNull) ]}) /\
  load_locations ["app"] ["app"; "data"]
    {[ ["app"; "companies.json"] :=
         File (Json (JList [JStr (py "locations")])) ]} =
  (Raise TypeError,
   {[ ["app"; "companies.json"] :=
        File (Json (JList [JStr (py "locations")])) ]}).
Proof.
  split.
  - exact (locations_type_error ["app"] ["app"; "data"]
             {[ ["app"; "companies.json"] := File (Json JNull) ]} JNull
             eq_refl eq_refl eq_refl (or_introl eq_refl)).
  - exact (locations_type_error ["app"] ["app"; "data"]
             {[ ["app"; "companies.json"] :=
                  File (Json (JList [JStr (py "locations")])) ]}
             (JList [JStr (py "locations")])
             eq_refl eq_refl eq_refl
             (or_intror (or_intror (or_intror (or_intror
                (ex_intro _ [JStr (py "locations")]
                   (conj eq_refl (or_introl eq_refl)))))))).
Defined.

(** X14.  Without a usable [locations.json], an object in [companies.json]
    whose ['locations'] is not itself an object makes [load_locations]
    raise [AttributeError]. *)
Theorem locations_attribute_error (SCRIPT_DIR DATA_DIR : path)
        (fs : gmap path node) (c : gmap pystr json) (x : json) :
  stored_allowed fs (LOCATIONS_FILE DATA_DIR) = None ->
  escapes fs (LOCATIONS_FILE DATA_DIR) = None ->
  node_at fs (COMPANIES_FILE SCRIPT_DIR) = Some (File (Json (JDict c))) ->
  c !! py "locations" = Some x ->
  isinstance_dict x = false ->
  load_locations SCRIPT_DIR DATA_DIR fs = (Raise AttributeError, fs).
Proof.
  intros E Hu Hc Hl Hx. rewrite load_locations_fallback by assumption.
  unfold load_companies, io_bind at 1. rewrite load_json_file_spec, Hc.
  unfold io_bind, io_lift, io_ret, py_in, py_getitem. rewrite Hl.
  destruct x; try discriminate; reflexivity.
Qed.

(** ['locations'] given as a list of names instead of an object. *)
Lemma locations_attribute_error_witness :
  load_locations ["app"] ["app"; "data"]
    {[ ["app"; "companies.json"] :=
         File (Json (JDict {[ py "locations" := JList [JStr (py "usa")] ]})) ]}
  = (Raise AttributeError,
     {[ ["app"; "companies.json"] :=
          File (Json (JDict {[ py "locations" := JList [JStr (py "usa")] ]})) ]}).
Proof.
  exact (locations_attribute_error ["app"] ["app"; "data"]
           {[ ["app"; "companies.json"] :=
                File (Json (JDict {[ py "locations" :=
                                       JList [JStr (py "usa")] ]})) ]}
           {[ py "locations" := JList [JStr (py "usa")] ]}
           (JList [JStr (py "usa")])
           eq_refl eq_refl eq_refl eq_refl eq_refl).
Defined.

(** X15.  For a plain dict [d] (strings without surrogates and lists of
    them under such keys) with the key ['allowed'], after
    [save_locations(d)] has returned, [load_locations()] gives the dict
    with that one entry: the other entries of [d] are not read back. *)
Theorem save_load_locations (J : PyJson) (SCRIPT_DIR DATA_DIR : path)
        (d : gmap pystr json) (x : json) (fs fs' : gmap path node) :
  plain (JDict d) = true ->
  save_locations J DATA_DIR (JDict d) fs = (Return tt, fs') ->
  d !! py "allowed" = Some x ->
  load_locations SCRIPT_DIR DATA_DIR fs' =
  (Return (JDict {[ py "allowed" := x ]}), fs').
Proof.
  intros Hp Hs Hx. unfold save_locations, LOCATIONS_FILE in Hs.
  destruct (save_in_data_dir J DATA_DIR "locations.json" (JDict d)
              (Some 2%nat) fs)
    as [(_ & _ & fs0 & Hs0 & _ & Hn) | (_ & fs0 & Hs0)];
    rewrite Hs0 in Hs; [|discriminate].
  injection Hs as _ <-.
  destruct (dump_plain J (Some 2%nat) (JDict d) Hp) as [_ Hl].
  rewrite Hl in Hn. apply load_locations_custom. unfold stored_allowed.
  fold (LOCATIONS_FILE DATA_DIR) in Hn. rewrite Hn. exact Hx.
Qed.

(** Saving two entries into an empty tree and loading. *)
Lemma save_load_locations_witness :
  load_locations ["app"] ["app"; "data"]
    (snd (save_locations IdealJson ["app"; "data"]
            (JDict {[ py "allowed" := JList [JStr (py "mars")];
                      py "blocked" := JList [] ]}) ∅)) =
  (Return (JDict {[ py "allowed" := JList [JStr (py "mars")] ]}),
   snd (save_locations IdealJson ["app"; "data"]
          (JDict {[ py "allowed" := JList [JStr (py "mars")];
                    py "blocked" := JList [] ]}) ∅)).
Proof.
  exact (save_load_locations IdealJson ["app"] ["app"; "data"]
           {[ py "allowed" := JList [JStr (py "mars")];
              py "blocked" := JList [] ]}
           (JList [JStr (py "mars")]) ∅ _ eq_refl eq_refl eq_refl).
Defined.

(** ** Files do not interfere *)

Lemma keywords_not_locations (DATA_DIR : path) :
  KEYWORDS_FILE DATA_DIR <> LOCATIONS_FILE DATA_DIR.
Proof. intros H. apply app_inv_head in H. discriminate. Qed.

Lemma keywords_not_companies (SCRIPT_DIR DATA_DIR : path) :
  KEYWORDS_FILE DATA_DIR <> COMPANIES_FILE SCRIPT_DIR.
Proof. intros H. apply app_inj_tail in H as [_ H]. discriminate. Qed.

(** X16.  Saving one kind of setting never changes what loading the other
    gives, whether the save returns or raises on the way:
    [save_keywords] leaves the result of [load_locations] as it was,
    and [save_locations] that of [load_keywords]; at most a directory
    stands afterwards where a file was missing. *)
Theorem saves_do_not_interfere (J : PyJson) (SCRIPT_DIR DATA_DIR : path)
        (data : json) (fs : gmap path node) :
  fst (load_locations SCRIPT_DIR DATA_DIR
         (snd (save_keywords J DATA_DIR data fs))) =
  fst (load_locations SCRIPT_DIR DATA_DIR fs) /\
  fst (load_keywords DATA_DIR (snd (save_locations J DATA_DIR data fs))) =
  fst (load_keywords DATA_DIR fs).
Proof.
  split.
  - apply load_locations_same. intros q Hq.
    apply (save_json_file_node J DATA_DIR (KEYWORDS_FILE DATA_DIR) q).
    destruct Hq as [-> | ->];
      [apply keywords_not_locations | apply keywords_not_companies].
  - unfold load_keywords. apply io_bind_fst_same.
    + apply load_json_file_same.
      apply (save_json_file_node J DATA_DIR (LOCATIONS_FILE DATA_DIR)).
      intros H. symmetry in H. exact (keywords_not_locations _ H).
    + intros keywords fs1 fs2.
      destruct (truthy keywords && isinstance_list keywords); reflexivity.
Qed.

(** * More on the matcher *)

(** The text "Remote - USA only" and the term "usa". *)
Lemma word_edged_term_matches_witness :
  matches_location_word_boundary AsciiUnicode (py "Remote - USA only")
    (Some [py "usa"]) = Some true <->
  delimited_occurrence AsciiUnicode (str_lower AsciiUnicode (py "usa"))
    (str_lower AsciiUnicode (py "Remote - USA only")).
Proof.
  exact (word_edged_term_matches AsciiUnicode (py "Remote - USA only")
           (py "usa") eq_refl).
Defined.

(** "usa" occurs in "thousand" once, between "o" and "n". *)
Lemma usa_in_thousand (pre post : pystr) :
  str_lower AsciiUnicode (py "thousand") =
  pre ++ str_lower AsciiUnicode (py "usa") ++ post ->
  re.is_word_at AsciiUnicode (last pre)
  || re.is_word_at AsciiUnicode (head post) = true.
Proof.
  intros E. vm_compute in E.
  do 8 (destruct pre as [|? pre]; simpl in E;
        [ first [discriminate E | injection E as <-; reflexivity]
        | injection E as <- E ]).
  destruct pre; discriminate E.
Qed.

Lemma word_edged_term_inside_word_witness :
  matches_location_word_boundary AsciiUnicode (py "thousand")
    (Some [py "usa"]) = Some false.
Proof.
  exact (word_edged_term_inside_word AsciiUnicode (py "thousand") (py "usa")
           eq_refl usa_in_thousand).
Defined.

Section MoreMatcher.

Variable U : PyUnicode.

Lemma is_word_at_last_false (s pre post : pystr) :
  existsb (re.is_word U) s = false -> s = pre ++ post ->
  re.is_word_at U (last pre) = false /\ re.is_word_at U (head post) = false.
Proof.
  intros Hs ->. rewrite List.existsb_app in Hs.
  apply orb_false_iff in Hs as [Hpre Hpost]. split.
  - destruct (last pre) as [c|] eqn:E; [|reflexivity]. simpl.
    apply last_Some in E as [pre' ->]. rewrite List.existsb_app in Hpre.
    apply orb_false_iff in Hpre as [_ Hc]. simpl in Hc.
    rewrite orb_false_r in Hc. exact Hc.
  - destruct post as [|c post]; [reflexivity|]. simpl in *.
    apply orb_false_iff in Hpost as [Hc _]. exact Hc.
Qed.

Lemma term_found_no_word (text_lower term : pystr) :
  existsb (re.is_word U) text_lower = false ->
  term_found U text_lower term = false.
Proof.
  intros Hs. apply not_true_is_false. intros H.
  apply search_term_ops in H as (pre & post & E & H1 & _).
  destruct (is_word_at_last_false _ pre _ Hs E) as [Hl Hh].
  unfold re.at_boundary in H1. rewrite Hl, Hh in H1. discriminate.
Qed.

Lemma default_term_word_edged (term : pystr) :
  In term default_allowed -> term <> py "u.s." ->
  word_edged U (str_lower U term) = true.
Proof.
  intros Hin Hne. unfold default_allowed in Hin. simpl in Hin.
  repeat (destruct Hin as [<- | Hin];
          [ try (exfalso; apply Hne; reflexivity);
            rewrite str_lower_ascii by reflexivity;
            unfold word_edged; apply andb_true_iff; split;
            (etransitivity;
             [ apply (is_word_to_ascii U); reflexivity | reflexivity ])
          | ]).
  destruct Hin.
Qed.

End MoreMatcher.

(** X4.  A text whose lowered form holds no word character (the empty text,
    punctuation, spaces) is matched by no list at all, given or
    omitted, whatever its terms: a boundary needs a word character. *)
Theorem no_word_character_no_match (U : PyUnicode) (text : pystr)
        (allowed_locations : option (list pystr)) :
  existsb (re.is_word U) (str_lower U text) = false ->
  matches_location_word_boundary U text allowed_locations = Some false.
Proof.
  intros H. destruct allowed_locations as [l|]; [|rewrite matches_None];
    rewrite matches_Some; f_equal; apply not_true_is_false; intros Hex;
    apply List.existsb_exists in Hex as (term & _ & Hf);
    rewrite (term_found_no_word U _ term H) in Hf; discriminate.
Qed.

(** The empty text with the default list, and dashes with the term
    "--". *)
Lemma no_word_character_no_match_witness :
  matches_location_word_boundary AsciiUnicode [] None = Some false /\
  matches_location_word_boundary AsciiUnicode (py "-- / --")
    (Some [py "--"]) = Some false.
Proof.
  split.
  - exact (no_word_character_no_match AsciiUnicode [] None eq_refl).
  - exact (no_word_character_no_match AsciiUnicode (py "-- / --")
             (Some [py "--"]) eq_refl).
Defined.

(** X5.  Joining two lists joins their results: the joined list matches a
    text exactly when one of the two does.  Adding terms never turns a
    match into a miss. *)
Theorem matches_app (U : PyUnicode) (text : pystr) (l1 l2 : list pystr) :
  matches_location_word_boundary U text (Some (l1 ++ l2)) = Some true <->
  matches_location_word_boundary U text (Some l1) = Some true \/
  matches_location_word_boundary U text (Some l2) = Some true.
Proof.
  rewrite !matches_Some, List.existsb_app. split.
  - intros [= H]. apply orb_true_iff in H as [H | H]; rewrite H; auto.
  - intros [[= H] | [= H]]; rewrite H, ?orb_true_r; reflexivity.
Qed.

(** X3.  With the list omitted, a text is matched whenever a default term
    other than "u.s." occurs in its lowered form with no word character
    directly before or after it. *)
Theorem default_term_matched (U : PyUnicode) (text term : pystr) :
  In term default_allowed ->
  term <> py "u.s." ->
  delimited_occurrence U (str_lower U term) (str_lower U text) ->
  matches_location_word_boundary U text None = Some true.
Proof.
  intros Hin Hne Hocc. rewrite matches_None, matches_Some. f_equal.
  apply List.existsb_exists. exists term. split; [exact Hin|].
  apply search_term_ops, delimited_iff_bounded; [|exact Hocc].
  apply default_term_word_edged; assumption.
Qed.

(** "canada" between a space and a comma. *)
Lemma default_term_matched_witness :
  matches_location_word_boundary AsciiUnicode (py "Toronto, Canada, hybrid")
    None = Some true.
Proof.
  exact (default_term_matched AsciiUnicode (py "Toronto, Canada, hybrid")
           (py "canada")
           (or_intror (or_intror (or_intror (or_intror (or_introl eq_refl)))))
           ltac:(discriminate)
           (ex_intro _ (py "toronto, ")
              (ex_intro _ (py ", hybrid")
                 (conj eq_refl (conj eq_refl eq_refl))))).
Defined.
